(** * maplibre-precipitation: the rendering kernel and its layer, verified

  The repository draws a precipitation field over a MapLibre map.  Its
  kernel is a GLSL fragment shader ([shaders.js]) driven by a JavaScript
  custom layer ([precipitation-layer.js]) that is configured from
  [config.js].

  Numeric model.  A GLSL [float] and a JavaScript number are modelled by a
  real number of [R]: the development verifies the arithmetic the program
  writes down (which constants, which comparisons, which guards), and
  rounding is outside the model.  Every literal of the source is kept as it
  is written, in particular the two different approximations of pi that the
  shader uses ([PI = 3.14159265359] and the bare [3.14159]).

  Layout: the GLSL built-ins, the fragment shader, the configuration
  module, the layer class, the vocabulary of the statements, and then the
  lemmas and the theorems about the claims C1 to C10. *)

From Stdlib Require Import Reals Lra Lia String List ZArith Bool.
From Stdlib Require Import Machin Permutation.
Import ListNotations.
Local Open Scope R_scope.

(** The mathematical constant, under a name the shader's own [PI] cannot
  hide. *)
Abbreviation real_pi := Rtrigo1.PI.

(* ================================================================= *)
(** ** GLSL values and built-in functions *)

Module GLSL.

Record vec2 : Type := Vec2 { v2x : R; v2y : R }.
Record vec3 : Type := Vec3 { v3x : R; v3y : R; v3z : R }.
Record vec4 : Type := Vec4 { v4x : R; v4y : R; v4z : R; v4w : R }.

(** The swizzle [.xy] of a [vec3]. *)
Definition xy (v : vec3) : vec2 := Vec2 (v3x v) (v3y v).

(** A uniform that was never written reads as zero. *)
Definition vec3_zero : vec3 := Vec3 0 0 0.

(** Component-wise products and quotients of the [vec2] expressions the
    shader writes. *)
Definition mul2 (a b : vec2) : vec2 := Vec2 (v2x a * v2x b) (v2y a * v2y b).
Definition scale2 (a : vec2) (k : R) : vec2 := Vec2 (v2x a * k) (v2y a * k).
Definition div2 (a : vec2) (k : R) : vec2 := Vec2 (v2x a / k) (v2y a / k).

(** [floor(x)]: the greatest integer not above [x]. *)
Definition floor (x : R) : R := IZR (Int_part x).


(** [clamp(x, minVal, maxVal) = min(max(x, minVal), maxVal)]. *)
Definition clamp (x minVal maxVal : R) : R := Rmin (Rmax x minVal) maxVal.

(** [pow(x, y)].  GLSL defines it for [x > 0], and for [x = 0] with
    [y > 0], where it is [0]; elsewhere the result is undefined, and the
    value [0] that this definition gives there is used by no theorem. *)
Definition pow (x y : R) : R := if Rlt_dec 0 x then Rpower x y else 0.

(** The two-argument [atan(y, x)]: the angle of the point [(x, y)], in
    [(-pi, pi]].  GLSL leaves [atan(0, 0)] undefined; it is [0] here. *)
Definition atan2 (y x : R) : R :=
  if Rlt_dec 0 x then atan (y / x)
  else if Rlt_dec x 0 then
         if Rle_dec 0 y then atan (y / x) + real_pi
         else atan (y / x) - real_pi
       else if Rlt_dec 0 y then real_pi / 2
            else if Rlt_dec y 0 then - (real_pi / 2)
                 else 0.

End GLSL.

(* ================================================================= *)
(** ** shaders.js: the fragment shader *)

Module Shaders.
Import GLSL.

(** The uniforms of [fragmentShaderSource].  [u_points] is declared
    [vec3 u_points[250]] and [u_gradientColors] is [vec3[5]]; each is kept
    as the list of the elements that were uploaded, and an element that was
    not uploaded reads as [vec3_zero]. *)
Record uniforms : Type := {
  u_center : vec2;
  u_zoom : R;
  u_viewportSize : vec2;
  u_influenceRadius : R;
  u_falloffSteepness : R;
  u_points : list vec3;
  u_numPoints : Z;
  u_gradientColors : list vec3;
  u_gradientStops : list R
}.

Definition EARTH_RADIUS : R := 6371.0.
Definition PI : R := 3.14159265359.
Definition WORLD_SIZE : R := 512.0.

Definition degToRad (deg : R) : R := deg * PI / 180.0.

Definition lngToMercatorX (lng : R) : R := (lng + 180.0) / 360.0.

Definition latToMercatorY (lat : R) : R :=
  let latRad := degToRad lat in
  let mercatorY := (PI - ln (tan (PI / 4.0 + latRad / 2.0))) / (2.0 * PI) in
  mercatorY.

Definition mercatorYToLat (y : R) : R :=
  let latRad := 2.0 * (atan (exp (PI * (1.0 - 2.0 * y))) - PI / 4.0) in
  latRad * 180.0 / PI.

Definition mercatorXToLng (x : R) : R := x * 360.0 - 180.0.


Definition lngDifference (lng1 lng2 : R) : R :=
  let diff := lng2 - lng1 in
  let diff := if Rgt_dec diff 180.0 then diff - 360.0 else diff in
  let diff := if Rlt_dec diff (-180.0) then diff + 360.0 else diff in
  diff.

(** [screenToGeo] returns the geographic position and, for its [out]
    parameter [worldWrap], the index of the world copy. *)
Definition screenToGeo (u : uniforms) (screenPos : vec2) : vec2 * R :=
  let centerMercX := lngToMercatorX (v2x (u_center u)) in
  let centerMercY := latToMercatorY (v2y (u_center u)) in
  let scale := WORLD_SIZE * pow 2.0 (u_zoom u) in
  let pixelPos :=
    scale2 (mul2 (Vec2 (v2x screenPos) (- v2y screenPos)) (u_viewportSize u))
           0.5 in
  let mercOffset := div2 pixelPos scale in
  let mercX := centerMercX + v2x mercOffset in
  let mercY := centerMercY + v2y mercOffset in
  let worldWrap := floor mercX in
  let normalizedMercX := mercX - worldWrap in
  let lng := mercatorXToLng normalizedMercX in
  let lat := mercatorYToLat mercY in
  (Vec2 lng lat, worldWrap).

Definition haversineDistance (point1 point2 : vec2) : R :=
  let lat1 := degToRad (v2y point1) in
  let lat2 := degToRad (v2y point2) in
  let dLat := degToRad (v2y point2 - v2y point1) in
  let lngDiff := lngDifference (v2x point1) (v2x point2) in
  let dLng := degToRad lngDiff in
  let a := sin (dLat / 2.0) * sin (dLat / 2.0) +
           cos lat1 * cos lat2 *
           sin (dLng / 2.0) * sin (dLng / 2.0) in
  let c := 2.0 * atan2 (sqrt a) (sqrt (1.0 - a)) in
  EARTH_RADIUS * c.

(** [u_gradientColors[k]]. *)
Definition gradientColor (u : uniforms) (k : nat) : vec3 :=
  nth k (u_gradientColors u) vec3_zero.

Definition getColor (u : uniforms) (value : R) : vec3 :=
  let value := clamp value 0.0 1.0 in
  if Rlt_dec value 0.2 then gradientColor u 0
  else if Rlt_dec value 0.4 then gradientColor u 1
  else if Rlt_dec value 0.6 then gradientColor u 2
  else if Rlt_dec value 0.8 then gradientColor u 3
  else gradientColor u 4.

(** The value the loop of [main] binds to its local [falloff], for a point
    at [distance] inside the radius: the normalised distance, its
    steepness adjustment and the cosine shaping. *)
Definition falloff (u : uniforms) (distance : R) : R :=
  let normalizedDist := distance / u_influenceRadius u in
  let normalizedDist := pow normalizedDist (u_falloffSteepness u) in
  0.5 + 0.5 * cos (normalizedDist * 3.14159).

(** One pass through the body of the loop of [main], below its [break]:
    from the running [(totalInfluence, totalWeight)] to the next. *)
Definition loopBody (u : uniforms) (currentPos : vec2)
           (totals : R * R) (point : vec3) : R * R :=
  let '(totalInfluence, totalWeight) := totals in
  let pointPos := xy point in
  let pointValue := v3z point in
  if Req_dec_T pointValue 0.0 then totals                 (* continue *)
  else
    let distance := haversineDistance currentPos pointPos in
    if Rlt_dec distance (u_influenceRadius u) then
      let falloff := falloff u distance in
      let influence := pointValue * falloff in
      let weight := falloff * falloff in
      (totalInfluence + influence * weight, totalWeight + weight)
    else totals.

(** [for (int i = 0; i < 250; i++) { if (i >= u_numPoints) break; ... }]:
    [remaining] counts the iterations left before [i] reaches 250. *)
Fixpoint loop (u : uniforms) (currentPos : vec2) (remaining i : nat)
         (totals : R * R) : R * R :=
  match remaining with
  | O => totals
  | S remaining' =>
      if (Z.of_nat i >=? u_numPoints u)%Z then totals      (* break *)
      else loop u currentPos remaining' (S i)
                (loopBody u currentPos totals (nth i (u_points u) vec3_zero))
  end.

(** The local [interpolatedValue] of [main] (the spec's [rawValue]) at the
    geographic position [currentPos]. *)
Definition interpolatedValue (u : uniforms) (currentPos : vec2) : R :=
  let '(totalInfluence, totalWeight) := loop u currentPos 250 0 (0.0, 0.0) in
  if Rgt_dec totalWeight 0.0
  then (totalInfluence / totalWeight) * 1.15
  else 0.0.

(** [main]: the value written to [gl_FragColor] for the fragment at
    [v_screenPos]. *)
Definition main (u : uniforms) (v_screenPos : vec2) : vec4 :=
  let '(currentPos, worldWrap) := screenToGeo u v_screenPos in
  if Req_dec_T worldWrap 0.0 then
    let interpolatedValue := interpolatedValue u currentPos in
    if Rle_dec interpolatedValue 0.0 then Vec4 0.0 0.0 0.0 0.0
    else
      let alpha := 0.8 in
      let color := getColor u interpolatedValue in
      Vec4 (v3x color / 255.0) (v3y color / 255.0) (v3z color / 255.0) alpha
  else Vec4 0.0 0.0 0.0 0.0.

End Shaders.

(* ================================================================= *)
(** ** config.js *)

Module Config.

(** The configuration object: the five fields of [DEFAULT_CONFIG]. *)
Record RenderConfig : Type := {
  influenceRadius : R;
  falloffSteepness : R;
  resolution : R;
  minValue : R;
  maxValue : R
}.

Definition DEFAULT_CONFIG : RenderConfig := {|
  influenceRadius := 25.0;
  falloffSteepness := 1.8;
  resolution := 512;
  minValue := 0.0;
  maxValue := 1.0
|}.

(** An object that gives some of the fields, as the argument of the
    constructor and of [updateConfig] does. *)
Record PartialConfig : Type := {
  influenceRadius' : option R;
  falloffSteepness' : option R;
  resolution' : option R;
  minValue' : option R;
  maxValue' : option R
}.

Definition emptyConfig : PartialConfig := {|
  influenceRadius' := None;
  falloffSteepness' := None;
  resolution' := None;
  minValue' := None;
  maxValue' := None
|}.

Definition orElse (given : option R) (previous : R) : R :=
  match given with Some v => v | None => previous end.

(** The object spread [{ ...base, ...given }]. *)
Definition spread (base : RenderConfig) (given : PartialConfig) : RenderConfig := {|
  influenceRadius := orElse (influenceRadius' given) (influenceRadius base);
  falloffSteepness := orElse (falloffSteepness' given) (falloffSteepness base);
  resolution := orElse (resolution' given) (resolution base);
  minValue := orElse (minValue' given) (minValue base);
  maxValue := orElse (maxValue' given) (maxValue base)
|}.

(** An entry of the gradient table: [{ stop, color: [r, g, b] }]. *)
Record GradientStop : Type := { stop : R; color : R * R * R }.

Definition COLOR_GRADIENT : list GradientStop := [
  {| stop := 0.0; color := (135, 206, 250) |};
  {| stop := 0.2; color := (100, 180, 230) |};
  {| stop := 0.4; color := (70, 130, 180) |};
  {| stop := 0.6; color := (30, 100, 200) |};
  {| stop := 0.8; color := (0, 60, 150) |}
].

End Config.

(* ================================================================= *)
(** ** precipitation-layer.js: the class [PrecipitationLayer] *)

Module Layer.
Import Config.

(** A sample point [{ lng, lat, value }]. *)
Record SamplePoint : Type := { lng : R; lat : R; value : R }.

(** What the layer reads from the host map and canvas in [render]. *)
Record Map : Type := { getCenter : R * R; getZoom : R }.
Record Canvas : Type := { clientWidth : R; clientHeight : R }.

(** What the layer observes of the WebGL context: whether each shader
    compiles and whether the program links. *)
Record WebGL : Type := {
  vertexCompiles : bool;
  fragmentCompiles : bool;
  programLinks : bool
}.

Inductive GLObject : Type := GLShader | GLProgram | GLBuffer.

(** The fields of an instance, without the constants [type = 'custom'] and
    [renderingMode = '2d'].  [pointsArray], [gradientColors] and
    [gradientStops] do not exist until [prepareUniformData] has run.
    [repaints] is not a field of the class: it counts the calls of
    [map.triggerRepaint()] the layer has made on its host. *)
Record PrecipitationLayer : Type := {
  id : string;
  points : list SamplePoint;
  config : RenderConfig;
  program : option GLObject;
  positionBuffer : option GLObject;
  locations : list string;
  map : option Map;
  pointsArray : option (list R);
  gradientColors : option (list R);
  gradientStops : option (list R);
  repaints : nat
}.

(** How a method call ends: it returns, or it throws [new Error(message)]. *)
Inductive completion (A : Type) : Type :=
| Normal (a : A)
| Throw (message : string).
Arguments Normal {A} a.
Arguments Throw {A} message.

(** A method: from the instance before the call to how the call ends and
    the instance after it.  A [throw] keeps the assignments made before
    it. *)
Definition M (A : Type) : Type :=
  PrecipitationLayer -> completion A * PrecipitationLayer.

Definition ret {A : Type} (a : A) : M A := fun this => (Normal a, this).

Definition bind {A B : Type} (m : M A) (k : A -> M B) : M B :=
  fun this =>
    match m this with
    | (Normal a, this') => k a this'
    | (Throw message, this') => (Throw message, this')
    end.

Definition throw {A : Type} (message : string) : M A :=
  fun this => (Throw message, this).

Definition get : M PrecipitationLayer := fun this => (Normal this, this).

Definition assign (f : PrecipitationLayer -> PrecipitationLayer) : M unit :=
  fun this => (Normal tt, f this).

Notation "x <- m ;; k" := (bind m (fun x => k))
  (at level 61, m at next level, right associativity).
Notation "m ;;; k" := (bind m (fun _ => k))
  (at level 61, right associativity).

(** Field assignments [this.f = v]. *)
Definition set_points (v : list SamplePoint) (this : PrecipitationLayer) :=
  {| id := id this; points := v; config := config this;
     program := program this; positionBuffer := positionBuffer this;
     locations := locations this; map := map this;
     pointsArray := pointsArray this; gradientColors := gradientColors this;
     gradientStops := gradientStops this; repaints := repaints this |}.

Definition set_config (v : RenderConfig) (this : PrecipitationLayer) :=
  {| id := id this; points := points this; config := v;
     program := program this; positionBuffer := positionBuffer this;
     locations := locations this; map := map this;
     pointsArray := pointsArray this; gradientColors := gradientColors this;
     gradientStops := gradientStops this; repaints := repaints this |}.

Definition set_program (v : option GLObject) (this : PrecipitationLayer) :=
  {| id := id this; points := points this; config := config this;
     program := v; positionBuffer := positionBuffer this;
     locations := locations this; map := map this;
     pointsArray := pointsArray this; gradientColors := gradientColors this;
     gradientStops := gradientStops this; repaints := repaints this |}.

Definition set_positionBuffer (v : option GLObject) (this : PrecipitationLayer) :=
  {| id := id this; points := points this; config := config this;
     program := program this; positionBuffer := v;
     locations := locations this; map := map this;
     pointsArray := pointsArray this; gradientColors := gradientColors this;
     gradientStops := gradientStops this; repaints := repaints this |}.

Definition set_locations (v : list string) (this : PrecipitationLayer) :=
  {| id := id this; points := points this; config := config this;
     program := program this; positionBuffer := positionBuffer this;
     locations := v; map := map this;
     pointsArray := pointsArray this; gradientColors := gradientColors this;
     gradientStops := gradientStops this; repaints := repaints this |}.

Definition set_map (v : option Map) (this : PrecipitationLayer) :=
  {| id := id this; points := points this; config := config this;
     program := program this; positionBuffer := positionBuffer this;
     locations := locations this; map := v;
     pointsArray := pointsArray this; gradientColors := gradientColors this;
     gradientStops := gradientStops this; repaints := repaints this |}.

Definition set_pointsArray (v : option (list R)) (this : PrecipitationLayer) :=
  {| id := id this; points := points this; config := config this;
     program := program this; positionBuffer := positionBuffer this;
     locations := locations this; map := map this;
     pointsArray := v; gradientColors := gradientColors this;
     gradientStops := gradientStops this; repaints := repaints this |}.

Definition set_gradientColors (v : option (list R)) (this : PrecipitationLayer) :=
  {| id := id this; points := points this; config := config this;
     program := program this; positionBuffer := positionBuffer this;
     locations := locations this; map := map this;
     pointsArray := pointsArray this; gradientColors := v;
     gradientStops := gradientStops this; repaints := repaints this |}.

Definition set_gradientStops (v : option (list R)) (this : PrecipitationLayer) :=
  {| id := id this; points := points this; config := config this;
     program := program this; positionBuffer := positionBuffer this;
     locations := locations this; map := map this;
     pointsArray := pointsArray this; gradientColors := gradientColors this;
     gradientStops := v; repaints := repaints this |}.

(** [if (this.map) { this.map.triggerRepaint(); }] *)
Definition triggerRepaint (this : PrecipitationLayer) : PrecipitationLayer :=
  match map this with
  | Some _ =>
      {| id := id this; points := points this; config := config this;
         program := program this; positionBuffer := positionBuffer this;
         locations := locations this; map := map this;
         pointsArray := pointsArray this; gradientColors := gradientColors this;
         gradientStops := gradientStops this; repaints := S (repaints this) |}
  | None => this
  end.

(** [constructor(id, points, config = {})].  Its body has no [throw]. *)
Definition constructor (id : string) (points : list SamplePoint)
           (config : PartialConfig) : completion PrecipitationLayer :=
  Normal {| id := id; points := points;
            config := spread DEFAULT_CONFIG config;
            program := None; positionBuffer := None; locations := [];
            map := None;
            pointsArray := None; gradientColors := None; gradientStops := None;
            repaints := 0 |}.

(** [createShader] returns [null] when the shader does not compile, and
    [createProgram] when the program does not link. *)
Definition createShader (compiles : bool) : option GLObject :=
  if compiles then Some GLShader else None.

Definition createProgram (gl : WebGL) : option GLObject :=
  if programLinks gl then Some GLProgram else None.

(** The two [forEach] loops of [prepareUniformData]. *)
Definition pointsFloats (points : list SamplePoint) : list R :=
  flat_map (fun point => [lng point; lat point; value point]) points.

Definition gradientColorFloats (gradient : list GradientStop) : list R :=
  flat_map (fun grad => let '(r, g, b) := color grad in [r; g; b]) gradient.

Definition gradientStopFloats (gradient : list GradientStop) : list R :=
  List.map stop gradient.

Definition prepareUniformData : M unit :=
  this <- get ;;
  if (250 <? length (points this))%nat
  then throw "Maximum 250 data points supported"
  else
    assign (set_pointsArray (Some (pointsFloats (points this)))) ;;;
    assign (set_gradientColors (Some (gradientColorFloats COLOR_GRADIENT))) ;;;
    assign (set_gradientStops (Some (gradientStopFloats COLOR_GRADIENT))).

Definition uniformNames : list string :=
  ["a_position"; "u_center"; "u_zoom"; "u_viewportSize"; "u_influenceRadius";
   "u_falloffSteepness"; "u_points"; "u_numPoints"; "u_gradientColors";
   "u_gradientStops"]%string.

Definition onAdd (map : Map) (gl : WebGL) : M unit :=
  assign (set_map (Some map)) ;;;
  let vertexShader := createShader (vertexCompiles gl) in
  let fragmentShader := createShader (fragmentCompiles gl) in
  match vertexShader, fragmentShader with
  | Some _, Some _ =>
      assign (set_program (createProgram gl)) ;;;
      this <- get ;;
      match program this with
      | None => throw "Failed to link shader program for precipitation layer"
      | Some _ =>
          assign (set_locations uniformNames) ;;;
          assign (set_positionBuffer (Some GLBuffer)) ;;;
          prepareUniformData
      end
  | _, _ => throw "Failed to compile shaders for precipitation layer"
  end.

Definition updateConfig (newConfig : PartialConfig) : M unit :=
  this <- get ;;
  assign (set_config (spread (config this) newConfig)) ;;;
  assign triggerRepaint.

Definition updatePoints (newPoints : list SamplePoint) : M unit :=
  assign (set_points newPoints) ;;;
  prepareUniformData ;;;
  assign triggerRepaint.

(** [gl.uniform3fv] on a [vec3] array of [capacity] elements: consecutive
    triples of the data, and what exceeds the array is ignored. *)
Fixpoint triples (data : list R) : list GLSL.vec3 :=
  match data with
  | a :: b :: c :: rest => GLSL.Vec3 a b c :: triples rest
  | _ => []
  end.

Definition uniform3fv (capacity : nat) (data : list R) : list GLSL.vec3 :=
  firstn capacity (triples data).

Definition uniform1fv (capacity : nat) (data : list R) : list R :=
  firstn capacity data.

(** [render]: the uniforms with which the full-screen quad is drawn.  Called
    on an instance that [onAdd] has not completed on, it has no map or no
    cached arrays to read and ends in a [TypeError]. *)
Definition render (canvas : Canvas) : M Shaders.uniforms :=
  this <- get ;;
  match map this, pointsArray this, gradientColors this, gradientStops this with
  | Some map, Some pointsArray, Some gradientColors, Some gradientStops =>
      let center := getCenter map in
      let zoom := getZoom map in
      ret {| Shaders.u_center := GLSL.Vec2 (fst center) (snd center);
             Shaders.u_zoom := zoom;
             Shaders.u_viewportSize :=
               GLSL.Vec2 (clientWidth canvas) (clientHeight canvas);
             Shaders.u_influenceRadius := influenceRadius (config this);
             Shaders.u_falloffSteepness := falloffSteepness (config this);
             Shaders.u_points := uniform3fv 250 pointsArray;
             Shaders.u_numPoints := Z.of_nat (length (points this));
             Shaders.u_gradientColors := uniform3fv 5 gradientColors;
             Shaders.u_gradientStops := uniform1fv 5 gradientStops |}
  | _, _, _, _ => throw "TypeError"
  end.

End Layer.

(* ================================================================= *)
(** ** Vocabulary of the statements, and concrete inputs *)

Module Spec.
Import GLSL Config Layer.

(** An RGB triple of the gradient table as the [vec3] it is uploaded as. *)
Definition rgb (c : R * R * R) : vec3 :=
  let '(r, g, b) := c in Vec3 r g b.

(** A sample point as the element of [u_points] it is uploaded as. *)
Definition uniformPoint (point : SamplePoint) : vec3 :=
  Vec3 (lng point) (lat point) (value point).

(** Whether a point of the uniform array, or a sample point, carries a
    value other than zero. *)
Definition carriesValue (point : vec3) : bool :=
  if Req_dec_T (v3z point) 0 then false else true.

Definition hasValue (point : SamplePoint) : bool :=
  if Req_dec_T (value point) 0 then false else true.

(** The colour lookup in the words of the specification: clamp the value to
    [0, 1], scan the gradient table in order, and return the colour of the
    last stop whose threshold is at most the value ([None] when no stop
    qualifies).  It is compared with [Shaders.getColor] below. *)
Definition colorFor (gradient : list GradientStop) (value : R) : option (R * R * R) :=
  let value := clamp value 0 1 in
  fold_left
    (fun found grad => if Rle_dec (stop grad) value then Some (color grad) else found)
    gradient None.

(** The reference thresholds, with any five colours. *)
Definition referenceTable (c0 c1 c2 c3 c4 : R * R * R) : list GradientStop := [
  {| stop := 0.0; color := c0 |};
  {| stop := 0.2; color := c1 |};
  {| stop := 0.4; color := c2 |};
  {| stop := 0.6; color := c3 |};
  {| stop := 0.8; color := c4 |}
].

(** Concrete inputs: a host map and canvas, a context in which the shaders
    build, a sample point, and a layer over that point before and after it
    is added to the map. *)
Definition hostMap : Map := {| getCenter := (10.25, 59.75); getZoom := 7.5 |}.

Definition hostCanvas : Canvas := {| clientWidth := 800; clientHeight := 600 |}.

Definition workingGL : WebGL :=
  {| vertexCompiles := true; fragmentCompiles := true; programLinks := true |}.

Definition bergen : SamplePoint := {| lng := 5.8; lat := 60.3; value := 0.92 |}.

Definition dryPoint : SamplePoint := {| lng := 11.8; lat := 61.2; value := 0.0 |}.

Definition newLayer : PrecipitationLayer := {|
  id := "precipitation-layer";
  points := [bergen];
  config := DEFAULT_CONFIG;
  program := None;
  positionBuffer := None;
  locations := [];
  map := None;
  pointsArray := None;
  gradientColors := None;
  gradientStops := None;
  repaints := 0
|}.

Definition activeLayer : PrecipitationLayer := snd (onAdd hostMap workingGL newLayer).

(** 251 sample points. *)
Definition tooManyPoints : list SamplePoint := repeat bergen 251.

(** Uniforms with one point of value 1 at [(10, 60)], and with the default
    radius and steepness. *)
Definition singlePointUniforms : Shaders.uniforms := {|
  Shaders.u_center := Vec2 10.0 60.0;
  Shaders.u_zoom := 7.5;
  Shaders.u_viewportSize := Vec2 800 600;
  Shaders.u_influenceRadius := 25.0;
  Shaders.u_falloffSteepness := 1.8;
  Shaders.u_points := [Vec3 10.0 60.0 1];
  Shaders.u_numPoints := 1;
  Shaders.u_gradientColors := List.map (fun grad => rgb (color grad)) COLOR_GRADIENT;
  Shaders.u_gradientStops := List.map stop COLOR_GRADIENT
|}.

(** Uniforms with radius 25 km and steepness 1, for which the normalised
    distance of a point is its distance over 25. *)
Definition linearUniforms : Shaders.uniforms := {|
  Shaders.u_center := Vec2 10.0 60.0;
  Shaders.u_zoom := 7.5;
  Shaders.u_viewportSize := Vec2 800 600;
  Shaders.u_influenceRadius := 25.0;
  Shaders.u_falloffSteepness := 1.0;
  Shaders.u_points := [];
  Shaders.u_numPoints := 0;
  Shaders.u_gradientColors := List.map (fun grad => rgb (color grad)) COLOR_GRADIENT;
  Shaders.u_gradientStops := List.map stop COLOR_GRADIENT
|}.

End Spec.

(* ================================================================= *)
(** ** Further concrete inputs *)

Module Inputs.
Import GLSL Config Layer Spec.

(** A camera near the antimeridian at zoom 0, where the viewport is wider
    than what is left of the world to the east. *)
Definition antimeridianUniforms : Shaders.uniforms := {|
  Shaders.u_center := Vec2 179.0 0.0;
  Shaders.u_zoom := 0;
  Shaders.u_viewportSize := Vec2 800 600;
  Shaders.u_influenceRadius := 25.0;
  Shaders.u_falloffSteepness := 1.8;
  Shaders.u_points := [Vec3 10.0 60.0 1];
  Shaders.u_numPoints := 1;
  Shaders.u_gradientColors := List.map (fun grad => rgb (color grad)) COLOR_GRADIENT;
  Shaders.u_gradientStops := List.map stop COLOR_GRADIENT
|}.

(** One point across the antimeridian from the query position
    [(179.9, 0)], a dry point, and a radius of 20 km. *)
Definition farUniforms : Shaders.uniforms := {|
  Shaders.u_center := Vec2 179.9 0.0;
  Shaders.u_zoom := 7.5;
  Shaders.u_viewportSize := Vec2 800 600;
  Shaders.u_influenceRadius := 20.0;
  Shaders.u_falloffSteepness := 1.8;
  Shaders.u_points := [Vec3 (-179.9) 0.0 1; Vec3 179.9 0.0 0];
  Shaders.u_numPoints := 2;
  Shaders.u_gradientColors := List.map (fun grad => rgb (color grad)) COLOR_GRADIENT;
  Shaders.u_gradientStops := List.map stop COLOR_GRADIENT
|}.

(** The uniforms of [singlePointUniforms] with a second array element left
    over from an earlier, longer upload. *)
Definition staleUniforms : Shaders.uniforms := {|
  Shaders.u_center := Vec2 10.0 60.0;
  Shaders.u_zoom := 7.5;
  Shaders.u_viewportSize := Vec2 800 600;
  Shaders.u_influenceRadius := 25.0;
  Shaders.u_falloffSteepness := 1.8;
  Shaders.u_points := [Vec3 10.0 60.0 1; Vec3 10.1 60.0 0.5];
  Shaders.u_numPoints := 1;
  Shaders.u_gradientColors := List.map (fun grad => rgb (color grad)) COLOR_GRADIENT;
  Shaders.u_gradientStops := List.map stop COLOR_GRADIENT
|}.

(** The uniforms of [farUniforms] with the two points in the other order. *)
Definition farUniformsSwapped : Shaders.uniforms := {|
  Shaders.u_center := Vec2 179.9 0.0;
  Shaders.u_zoom := 7.5;
  Shaders.u_viewportSize := Vec2 800 600;
  Shaders.u_influenceRadius := 20.0;
  Shaders.u_falloffSteepness := 1.8;
  Shaders.u_points := [Vec3 179.9 0.0 0; Vec3 (-179.9) 0.0 1];
  Shaders.u_numPoints := 2;
  Shaders.u_gradientColors := List.map (fun grad => rgb (color grad)) COLOR_GRADIENT;
  Shaders.u_gradientStops := List.map stop COLOR_GRADIENT
|}.

(** A gradient table with the colours of [COLOR_GRADIENT] and other
    thresholds, and the uniforms uploaded from it. *)
Definition shiftedTable : list GradientStop := [
  {| stop := 0.0; color := (135, 206, 250) |};
  {| stop := 0.5; color := (100, 180, 230) |};
  {| stop := 0.6; color := (70, 130, 180) |};
  {| stop := 0.7; color := (30, 100, 200) |};
  {| stop := 0.9; color := (0, 60, 150) |}
].

Definition shiftedTableUniforms : Shaders.uniforms := {|
  Shaders.u_center := Vec2 10.0 60.0;
  Shaders.u_zoom := 7.5;
  Shaders.u_viewportSize := Vec2 800 600;
  Shaders.u_influenceRadius := 25.0;
  Shaders.u_falloffSteepness := 1.8;
  Shaders.u_points := [Vec3 10.0 60.0 1];
  Shaders.u_numPoints := 1;
  Shaders.u_gradientColors := uniform3fv 5 (gradientColorFloats shiftedTable);
  Shaders.u_gradientStops := uniform1fv 5 (gradientStopFloats shiftedTable)
|}.

(** What the slider of the influence radius passes to [updateConfig]. *)
Definition radiusOnly (radius : R) : PartialConfig := {|
  influenceRadius' := Some radius;
  falloffSteepness' := None;
  resolution' := None;
  minValue' := None;
  maxValue' := None
|}.

(** A complete configuration passed where a partial one is expected, as the
    reset button passes [DEFAULT_CONFIG]. *)
Definition allFields (given : RenderConfig) : PartialConfig := {|
  influenceRadius' := Some (influenceRadius given);
  falloffSteepness' := Some (falloffSteepness given);
  resolution' := Some (resolution given);
  minValue' := Some (minValue given);
  maxValue' := Some (maxValue given)
|}.

End Inputs.

(* ================================================================= *)
(** ** config.js and main.js: the demonstration data and its use *)

Module Demo.
Import Config.

(** [Math.random()] is an input of the generator: the k-th call returns
    [random k].  A computation that draws random numbers takes the number
    of calls made so far and returns its result with the number of calls
    made after it. *)
Definition Gen (A : Type) : Type := nat -> A * nat.

Definition gret {A : Type} (a : A) : Gen A := fun calls => (a, calls).

Definition gbind {A B : Type} (m : Gen A) (k : A -> Gen B) : Gen B :=
  fun calls => let '(a, calls') := m calls in k a calls'.

Definition Math_random (random : nat -> R) : Gen R :=
  fun calls => (random calls, S calls).

Notation "x <~ m ;; k" := (gbind m (fun x => k))
  (at level 61, m at next level, right associativity).

(** [parseFloat(x.toFixed(digits))]: the multiple of [10^-digits] nearest
    to [x], the one of larger magnitude when two are equally near.  (The
    exponent notation [toFixed] switches to from 1e21 on is left out.) *)
Definition toFixed (digits : nat) (x : R) : R :=
  if Rlt_dec x 0
  then - (IZR (Int_part (- x * 10 ^ digits + 0.5)) / 10 ^ digits)
  else IZR (Int_part (x * 10 ^ digits + 0.5)) / 10 ^ digits.

Record RainCluster : Type := {
  c_lng : R; c_lat : R; c_radius : R; c_intensity : R; c_density : R
}.

Definition rainClusters : list RainCluster := [
  {| c_lng := 5.8; c_lat := 60.3; c_radius := 1.2; c_intensity := 0.92; c_density := 0.85 |};
  {| c_lng := 6.5; c_lat := 59.8; c_radius := 0.9; c_intensity := 0.88; c_density := 0.80 |};
  {| c_lng := 7.8; c_lat := 60.5; c_radius := 1.5; c_intensity := 0.75; c_density := 0.70 |};
  {| c_lng := 8.5; c_lat := 59.5; c_radius := 1.3; c_intensity := 0.70; c_density := 0.65 |};
  {| c_lng := 10.2; c_lat := 60.8; c_radius := 0.6; c_intensity := 0.82; c_density := 0.75 |};
  {| c_lng := 11.0; c_lat := 59.3; c_radius := 0.7; c_intensity := 0.78; c_density := 0.70 |};
  {| c_lng := 11.8; c_lat := 61.2; c_radius := 0.8; c_intensity := 0.58; c_density := 0.55 |};
  {| c_lng := 12.3; c_lat := 60.0; c_radius := 0.5; c_intensity := 0.52; c_density := 0.50 |};
  {| c_lng := 8.0; c_lat := 58.5; c_radius := 1.0; c_intensity := 0.68; c_density := 0.60 |};
  {| c_lng := 9.2; c_lat := 58.8; c_radius := 0.8; c_intensity := 0.72; c_density := 0.65 |};
  {| c_lng := 10.8; c_lat := 58.3; c_radius := 0.4; c_intensity := 0.62; c_density := 0.50 |};
  {| c_lng := 7.2; c_lat := 61.3; c_radius := 0.6; c_intensity := 0.65; c_density := 0.55 |}
].

Definition lngMin : R := 7.5.
Definition lngMax : R := 13.0.
Definition latMin : R := 58.5.
Definition latMax : R := 61.0.
Definition gridSize : R := sqrt 200.
Definition lngStep : R := (lngMax - lngMin) / gridSize.
Definition latStep : R := (latMax - latMin) / gridSize.

(** [for (let i = start; i < gridSize; i++) body]: the counter is compared
    with the real number [gridSize]; [fuel] bounds the number of passes of
    the model, and the theorems show which [fuel] the loop never uses up. *)
Fixpoint forLoop {State : Type} (fuel : nat) (i : nat)
         (body : nat -> State -> Gen State) (state : State) : Gen State :=
  match fuel with
  | O => gret state
  | S fuel' =>
      if Rlt_dec (INR i) gridSize
      then state' <~ body i state ;; forLoop fuel' (S i) body state'
      else gret state
  end.

(** One pass of [for (const cluster of rainClusters)], from the running
    [maxValue] to the next. *)
Definition clusterStep (random : nat -> R) (lng lat : R)
           (maxValue : R) (cluster : RainCluster) : Gen R :=
  let distLng := lng - c_lng cluster in
  let distLat := lat - c_lat cluster in
  let distance := sqrt (distLng * distLng + distLat * distLat) in
  if Rlt_dec distance (c_radius cluster) then
    let normalizedDist := distance / c_radius cluster in
    let falloff := cos (normalizedDist * real_pi / 2) in
    r <~ Math_random random ;;
    let randomFactor := 0.7 + r * 0.6 in
    let value := c_intensity cluster * falloff * randomFactor in
    chance <~ Math_random random ;;
    value <~ (if Rgt_dec chance (c_density cluster)
              then r' <~ Math_random random ;; gret (value * (r' * 0.3))
              else gret value) ;;
    gret (Rmax maxValue value)
  else gret maxValue.

Fixpoint forClusters (random : nat -> R) (lng lat : R)
         (clusters : list RainCluster) (maxValue : R) : Gen R :=
  match clusters with
  | [] => gret maxValue
  | cluster :: rest =>
      maxValue' <~ clusterStep random lng lat maxValue cluster ;;
      forClusters random lng lat rest maxValue'
  end.

(** The body of the inner loop: the point of the grid cell [(i, j)]. *)
Definition gridPoint (random : nat -> R) (i j : nat) : Gen Layer.SamplePoint :=
  r <~ Math_random random ;;
  let jitterLng := (r - 0.5) * lngStep * 0.5 in
  r' <~ Math_random random ;;
  let jitterLat := (r' - 0.5) * latStep * 0.5 in
  let lng := lngMin + INR i * lngStep + jitterLng in
  let lat := latMin + INR j * latStep + jitterLat in
  maxValue <~ forClusters random lng lat rainClusters 0 ;;
  let finalValue := Rmin maxValue 1.0 in
  finalValue <~ (if Rlt_dec finalValue 0.1
                 then chance <~ Math_random random ;;
                      if Rlt_dec chance 0.2
                      then light <~ Math_random random ;; gret (light * 0.25)
                      else gret finalValue
                 else gret finalValue) ;;
  let finalValue := if Rlt_dec finalValue 0.08 then 0.0 else finalValue in
  gret {| Layer.lng := toFixed 4 lng;
          Layer.lat := toFixed 4 lat;
          Layer.value := toFixed 3 finalValue |}.

(** The inner loop pushes the point of each cell onto [points]. *)
Definition pushPoint (random : nat -> R) (i j : nat)
           (points : list Layer.SamplePoint) : Gen (list Layer.SamplePoint) :=
  point <~ gridPoint random i j ;;
  gret (points ++ [point]).

Definition generatePrecipitationPoints (random : nat -> R) (fuel : nat)
  : Gen (list Layer.SamplePoint) :=
  forLoop fuel 0
    (fun i points => forLoop fuel 0 (pushPoint random i) points)
    [].

(** [export const TEST_POINTS = generatePrecipitationPoints();] *)
Definition TEST_POINTS (random : nat -> R) (fuel : nat) : list Layer.SamplePoint :=
  fst (generatePrecipitationPoints random fuel 0%nat).

(** main.js, the handler of the map's [load] event: it constructs the layer
    over [TEST_POINTS] with [DEFAULT_CONFIG] and adds it to the map, upon
    which the map calls [onAdd]. *)
Definition onLoad (random : nat -> R) (fuel : nat)
           (host : Layer.Map) (gl : Layer.WebGL)
  : Layer.completion unit * option Layer.PrecipitationLayer :=
  match Layer.constructor "precipitation-layer" (TEST_POINTS random fuel)
                          (Inputs.allFields DEFAULT_CONFIG) with
  | Layer.Normal precipitationLayer =>
      let '(added, this) := Layer.onAdd host gl precipitationLayer in
      (added, Some this)
  | Layer.Throw message => (Layer.Throw message, None)
  end.

(** A random source for the examples: every call returns 0.5. *)
Definition steadyRandom : nat -> R := fun _ => 0.5.

End Demo.

(* ================================================================= *)
(** ** Bounds on pi *)

(** Writes the decimal literals of the goal as quotients of integers, the
    form [field] works on. *)
Ltac decimals := unfold Q2R; cbn [QArith_base.Qnum QArith_base.Qden].

(** Two partial sums of the Machin-like series for [atan (1/3)] and
    [atan (1/7)] place pi between the shader's short literal and 3.1416. *)
Lemma real_pi_above_literal : 3.14159 < real_pi.
Proof.
  destruct (PI_2_3_7_ineq 2) as [Hlow _].
  unfold sum_f_R0, tg_alt, PI_2_3_7_tg, Ratan_seq in Hlow.
  simpl in Hlow. lra.
Qed.

Lemma real_pi_below : real_pi < 3.1416.
Proof.
  destruct (PI_2_3_7_ineq 3) as [_ Hup].
  unfold sum_f_R0, tg_alt, PI_2_3_7_tg, Ratan_seq in Hup.
  simpl in Hup. lra.
Qed.

(* ================================================================= *)
(** ** Longitude difference *)

Section LngDifference.
Import Shaders.

Lemma lngDifference_cases (a b : R) :
  (180 < b - a /\ lngDifference a b = b - a - 360) \/
  (b - a < -180 /\ lngDifference a b = b - a + 360) \/
  (-180 <= b - a <= 180 /\ lngDifference a b = b - a).
Proof.
  unfold lngDifference.
  destruct (Rgt_dec (b - a) 180.0) as [Hgt | Hgt].
  - left. destruct (Rlt_dec (b - a - 360.0) (-180.0)); lra.
  - destruct (Rlt_dec (b - a) (-180.0)) as [Hlt | Hlt].
    + right; left. lra.
    + right; right. lra.
Qed.

Lemma lngDifference_antisym (a b : R) :
  lngDifference b a = - lngDifference a b.
Proof.
  destruct (lngDifference_cases a b) as [[H E] | [[H E] | [H E]]];
    destruct (lngDifference_cases b a) as [[H' E'] | [[H' E'] | [H' E']]];
    lra.
Qed.

Lemma lngDifference_same (a : R) : lngDifference a a = 0.
Proof.
  destruct (lngDifference_cases a a) as [[H E] | [[H E] | [H E]]]; lra.
Qed.

Lemma lngDifference_range (a b : R) :
  -180 <= a <= 180 -> -180 <= b <= 180 ->
  -180 <= lngDifference a b <= 180.
Proof.
  intros Ha Hb.
  destruct (lngDifference_cases a b) as [[H E] | [[H E] | [H E]]]; lra.
Qed.

(** Among the angles congruent to [b - a] modulo 360, the one of smallest
    magnitude. *)
Lemma lngDifference_shortest (a b : R) (k : Z) :
  -180 <= a <= 180 -> -180 <= b <= 180 ->
  Rabs (lngDifference a b) <= Rabs (b - a + 360 * IZR k).
Proof.
  intros Ha Hb.
  assert (Hint : forall j : Z, (j <= -1)%Z \/ j = 0%Z \/ (1 <= j)%Z) by (intro; lia).
  assert (Hbound : forall (r : R) (j : Z),
             Rabs r <= 180 -> j <> 0%Z -> Rabs r <= Rabs (r + 360 * IZR j)).
  { intros r j Hr Hj.
    destruct (Hint j) as [Hneg | [Hz | Hpos]]; [ | contradiction | ].
    - apply IZR_le in Hneg.
      unfold Rabs in *. destruct (Rcase_abs r), (Rcase_abs (r + 360 * IZR j)); lra.
    - apply IZR_le in Hpos.
      unfold Rabs in *. destruct (Rcase_abs r), (Rcase_abs (r + 360 * IZR j)); lra. }
  destruct (lngDifference_cases a b) as [[H E] | [[H E] | [H E]]]; rewrite E.
  - destruct (Z.eq_dec (k + 1) 0) as [Hk | Hk].
    + replace k with (-1)%Z by lia. right. f_equal. lra.
    + replace (b - a + 360 * IZR k) with (b - a - 360 + 360 * IZR (k + 1))
        by (rewrite plus_IZR; lra).
      apply Hbound; [ | exact Hk ].
      unfold Rabs; destruct (Rcase_abs (b - a - 360)); lra.
  - destruct (Z.eq_dec (k - 1) 0) as [Hk | Hk].
    + replace k with 1%Z by lia. right. f_equal. lra.
    + replace (b - a + 360 * IZR k) with (b - a + 360 + 360 * IZR (k - 1))
        by (rewrite minus_IZR; lra).
      apply Hbound; [ | exact Hk ].
      unfold Rabs; destruct (Rcase_abs (b - a + 360)); lra.
  - destruct (Z.eq_dec k 0) as [Hk | Hk].
    + subst k. right. f_equal. lra.
    + apply Hbound; [ | exact Hk ].
      unfold Rabs; destruct (Rcase_abs (b - a)); lra.
Qed.

End LngDifference.

(* ================================================================= *)
(** ** Great-circle distance *)

Section Haversine.
Import GLSL Shaders.

Lemma degToRad_0 : degToRad 0 = 0.
Proof. unfold degToRad. lra. Qed.

Lemma degToRad_opp (d : R) : degToRad (- d) = - degToRad d.
Proof. unfold degToRad. lra. Qed.

Lemma sin_half_opp (t : R) : sin (- t / 2.0) = - sin (t / 2.0).
Proof.
  replace (- t / 2.0) with (- (t / 2.0)) by lra.
  apply sin_neg.
Qed.

Lemma haversineDistance_sym (p q : vec2) :
  haversineDistance p q = haversineDistance q p.
Proof.
  unfold haversineDistance.
  rewrite (lngDifference_antisym (v2x q) (v2x p)).
  replace (v2y p - v2y q) with (- (v2y q - v2y p)) by lra.
  rewrite !degToRad_opp, !sin_half_opp.
  match goal with
  | |- _ * (_ * atan2 (sqrt ?a) _) = _ * (_ * atan2 (sqrt ?b) _) =>
      replace b with a by ring
  end.
  reflexivity.
Qed.

Lemma atan2_0_1 : atan2 0 1 = 0.
Proof.
  unfold atan2. destruct (Rlt_dec 0 1) as [_ | H]; [ | lra ].
  replace (0 / 1) with 0 by lra. apply atan_0.
Qed.

Lemma haversineDistance_same (p : vec2) : haversineDistance p p = 0.
Proof.
  unfold haversineDistance.
  rewrite lngDifference_same.
  replace (v2y p - v2y p) with 0 by lra.
  rewrite degToRad_0.
  replace (0 / 2.0) with 0 by lra.
  rewrite sin_0.
  replace (0 * 0 + cos (degToRad (v2y p)) * cos (degToRad (v2y p)) * 0 * 0)
    with 0 by ring.
  replace (1.0 - 0) with 1 by lra.
  rewrite sqrt_0, sqrt_1, atan2_0_1.
  unfold EARTH_RADIUS. lra.
Qed.

(** The quantity [a] of [haversineDistance] lies in [0, 1] for all
    inputs, so both square roots are taken of non-negative numbers. *)
Lemma haversine_argument_bounds (lat1 lat2 dLng : R) :
  0 <= sin ((lat2 - lat1) / 2.0) * sin ((lat2 - lat1) / 2.0) +
       cos lat1 * cos lat2 * sin (dLng / 2.0) * sin (dLng / 2.0) <= 1.
Proof.
  set (s := sin (dLng / 2.0) * sin (dLng / 2.0)).
  set (h := sin ((lat2 - lat1) / 2.0) * sin ((lat2 - lat1) / 2.0)).
  assert (Hs : 0 <= s <= 1).
  { pose proof (sin2_cos2 (dLng / 2.0)) as E. unfold Rsqr in E. unfold s. nra. }
  assert (Hh : cos (lat2 - lat1) = 1 - 2 * h).
  { unfold h. rewrite <- Rmult_assoc, <- cos_2a_sin. f_equal. lra. }
  pose proof (cos_minus lat2 lat1) as Hminus.
  pose proof (cos_plus lat2 lat1) as Hplus.
  pose proof (COS_bound (lat2 - lat1)) as [Hd1 Hd2].
  pose proof (COS_bound (lat2 + lat1)) as [Hs1 Hs2].
  replace (h + cos lat1 * cos lat2 * sin (dLng / 2.0) * sin (dLng / 2.0))
    with (h + cos lat1 * cos lat2 * s) by (unfold s; ring).
  assert (Hprod : cos lat1 * cos lat2 = (cos (lat2 - lat1) + cos (lat2 + lat1)) / 2)
    by lra.
  rewrite Hprod. split; nra.
Qed.

(** The angle recovered from the haversine [a = sin h * sin h] of a half-angle
    [h] in the first quadrant is [h] itself. *)
Lemma atan2_of_half_angle (h : R) :
  0 <= h < real_pi / 2 ->
  atan2 (sqrt (sin h * sin h)) (sqrt (1.0 - sin h * sin h)) = h.
Proof.
  intros [H0 H1].
  assert (Hpi : 0 < real_pi) by apply PI_RGT_0.
  assert (Hsin : 0 <= sin h) by (apply sin_ge_0; lra).
  assert (Hcos : 0 < cos h) by (apply cos_gt_0; lra).
  rewrite (sqrt_square (sin h) Hsin).
  replace (1.0 - sin h * sin h) with (cos h * cos h).
  2:{ pose proof (sin2_cos2 h) as E. unfold Rsqr in E. lra. }
  rewrite (sqrt_square (cos h)) by lra.
  unfold atan2. destruct (Rlt_dec 0 (cos h)) as [_ | H]; [ | contradiction ].
  change (sin h / cos h) with (tan h).
  apply atan_tan. lra.
Qed.



(** Two points on the equator, across the antimeridian. *)
Lemma haversineDistance_antimeridian :
  haversineDistance (Vec2 179.9 0.0) (Vec2 (-179.9) 0.0)
  = 6371.0 * (2.0 * (0.2 * PI / 180.0 / 2.0)).
Proof.
  unfold haversineDistance. cbn [v2x v2y].
  destruct (lngDifference_cases 179.9 (-179.9)) as [[H E] | [[H E] | [H E]]];
    try lra.
  rewrite E.
  replace (-179.9 - 179.9 + 360) with 0.2 by lra.
  replace (0.0 - 0.0) with 0 by lra.
  replace (degToRad 0.0) with 0 by (unfold degToRad; lra).
  rewrite degToRad_0.
  replace (0 / 2.0) with 0 by lra.
  rewrite sin_0, cos_0.
  set (h := degToRad 0.2 / 2.0).
  replace (0 * 0 + 1 * 1 * sin h * sin h) with (sin h * sin h) by ring.
  rewrite atan2_of_half_angle.
  - unfold h, degToRad, EARTH_RADIUS. reflexivity.
  - pose proof real_pi_above_literal.
    unfold h, degToRad, PI. lra.
Qed.

End Haversine.

(* ================================================================= *)
(** ** Projection *)

Section Projection.
Import GLSL Shaders.

Lemma mercatorX_roundtrip (lng : R) : mercatorXToLng (lngToMercatorX lng) = lng.
Proof. unfold mercatorXToLng, lngToMercatorX. lra. Qed.

(** The half-angle whose tangent [latToMercatorY] takes stays inside the
    first quadrant for every latitude below 85 degrees in magnitude: the
    shader's [PI] is the only constant involved, and 175/360 of it is less
    than half of pi. *)
Lemma mercator_half_angle (lat : R) :
  -85 < lat < 85 ->
  0 < PI / 4.0 + degToRad lat / 2.0 < real_pi / 2.
Proof.
  intros Hlat. pose proof real_pi_above_literal.
  unfold degToRad, PI. lra.
Qed.

Lemma mercatorY_roundtrip (lat : R) :
  -85 < lat < 85 -> mercatorYToLat (latToMercatorY lat) = lat.
Proof.
  intros Hlat.
  pose proof (mercator_half_angle lat Hlat) as [Hlow Hhigh].
  unfold mercatorYToLat, latToMercatorY.
  set (t := PI / 4.0 + degToRad lat / 2.0) in *.
  assert (Hc : 0 < PI) by (unfold PI; lra).
  replace (PI * (1.0 - 2.0 * ((PI - ln (tan t)) / (2.0 * PI))))
    with (ln (tan t)) by (decimals; field; lra).
  rewrite exp_ln by (apply tan_gt_0; assumption).
  rewrite atan_tan by lra.
  unfold t, degToRad. decimals. field. lra.
Qed.

(** [floor] on the unit interval. *)
Lemma floor_unit (x : R) : 0 <= x < 1 -> floor x = 0.
Proof.
  intros Hx. unfold floor.
  rewrite <- (Int_part_spec x 0%Z); [ reflexivity | lra ].
Qed.

(** The fragment at the centre of the viewport lies in the main world, at
    the centre of the map. *)
Lemma screenToGeo_centre (u : uniforms) :
  -180 <= v2x (u_center u) < 180 -> -85 < v2y (u_center u) < 85 ->
  screenToGeo u (Vec2 0 0) = (u_center u, 0).
Proof.
  intros Hlng Hlat. unfold screenToGeo. cbn [mul2 scale2 div2 v2x v2y].
  set (scale := WORLD_SIZE * pow 2.0 (u_zoom u)).
  replace (0 * v2x (u_viewportSize u) * 0.5 / scale) with 0 by (unfold Rdiv; ring).
  replace (- 0 * v2y (u_viewportSize u) * 0.5 / scale) with 0 by (unfold Rdiv; ring).
  rewrite !Rplus_0_r.
  rewrite floor_unit by (unfold lngToMercatorX; lra).
  rewrite Rminus_0_r, mercatorX_roundtrip, mercatorY_roundtrip by exact Hlat.
  destruct (u_center u); reflexivity.
Qed.

End Projection.

(* ================================================================= *)
(** ** Falloff *)

Section Falloff.
Import GLSL Shaders.

Lemma pow_pos_base (x y : R) : 0 < x -> pow x y = Rpower x y.
Proof.
  intros Hx. unfold pow. destruct (Rlt_dec 0 x); [ reflexivity | contradiction ].
Qed.

Lemma pow_0_base (y : R) : pow 0 y = 0.
Proof.
  unfold pow. destruct (Rlt_dec 0 0); [ lra | reflexivity ].
Qed.

(** A base strictly between 0 and 1 raised to a positive exponent stays
    strictly between 0 and 1. *)
Lemma Rpower_unit_interval (x y : R) :
  0 < x < 1 -> 0 < y -> 0 < Rpower x y < 1.
Proof.
  intros [Hx0 Hx1] Hy. unfold Rpower. split.
  - apply exp_pos.
  - rewrite <- exp_0. apply exp_increasing.
    assert (Hln : ln x < 0) by (rewrite <- ln_1; apply ln_increasing; lra).
    nra.
Qed.

(** Strictly inside the half-turn the cosine is strictly between -1
    and 1. *)
Lemma cos_strict_bounds (x : R) : 0 < x < real_pi -> -1 < cos x < 1.
Proof.
  intros [H0 H1].
  assert (Hs : 0 < sin x) by (apply sin_gt_0; assumption).
  pose proof (sin2_cos2 x) as E. unfold Rsqr in E.
  split; nra.
Qed.

Lemma falloff_inside (u : uniforms) (d : R) :
  0 < d < u_influenceRadius u -> 0 < u_falloffSteepness u ->
  let nd := Rpower (d / u_influenceRadius u) (u_falloffSteepness u) in
  falloff u d = 0.5 + 0.5 * cos (nd * 3.14159) /\
  0 < nd < 1 /\
  0 < falloff u d < 1.
Proof.
  intros [Hd0 Hd1] Hs nd.
  assert (Hq : 0 < d / u_influenceRadius u < 1).
  { split.
    - apply Rdiv_lt_0_compat; lra.
    - apply Rmult_lt_reg_r with (u_influenceRadius u); [ lra | ].
      unfold Rdiv. rewrite Rmult_assoc, Rinv_l by lra. lra. }
  pose proof (Rpower_unit_interval _ _ Hq Hs) as Hnd. fold nd in Hnd.
  assert (E : falloff u d = 0.5 + 0.5 * cos (nd * 3.14159)).
  { unfold falloff. rewrite pow_pos_base by apply Hq. reflexivity. }
  split; [ exact E | split; [ exact Hnd | ] ].
  rewrite E.
  pose proof real_pi_above_literal.
  assert (Hc : -1 < cos (nd * 3.14159) < 1) by (apply cos_strict_bounds; nra).
  lra.
Qed.

Lemma falloff_at_centre (u : uniforms) :
  0 < u_falloffSteepness u -> falloff u 0 = 1.
Proof.
  intros _. unfold falloff.
  replace (0 / u_influenceRadius u) with 0 by (unfold Rdiv; ring).
  rewrite pow_0_base.
  replace (0 * 3.14159) with 0 by lra.
  rewrite cos_0. lra.
Qed.

End Falloff.

(* ================================================================= *)
(** ** The blending loop *)

Section Blend.
Import GLSL Shaders Spec.

(** When the uploaded array holds exactly [u_numPoints] points and these
    fit in the 250 iterations, the loop is a left fold of its body over the
    points not yet visited. *)
Lemma loop_fold (u : uniforms) (currentPos : vec2) (rest : list vec3) :
  forall (visited : list vec3) (remaining : nat) (totals : R * R),
    u_points u = visited ++ rest ->
    u_numPoints u = Z.of_nat (length (visited ++ rest)) ->
    (length rest <= remaining)%nat ->
    loop u currentPos remaining (length visited) totals
    = fold_left (loopBody u currentPos) rest totals.
Proof.
  induction rest as [ | point rest IH ]; intros visited remaining totals Hpts Hnum Hlen.
  - destruct remaining as [ | remaining ]; [ reflexivity | ].
    cbn [loop fold_left]. rewrite Hnum, app_nil_r.
    destruct (Z.geb_spec (Z.of_nat (length visited)) (Z.of_nat (length visited)));
      [ reflexivity | lia ].
  - destruct remaining as [ | remaining ]; [ cbn in Hlen; lia | ].
    cbn [loop fold_left]. rewrite Hnum.
    destruct (Z.geb_spec (Z.of_nat (length visited))
                         (Z.of_nat (length (visited ++ point :: rest)))) as [Hge | _].
    + rewrite length_app in Hge. cbn in Hge. lia.
    + rewrite Hpts, nth_middle.
      replace (S (length visited)) with (length (visited ++ [point]))
        by (rewrite length_app; cbn; lia).
      apply IH.
      * rewrite <- app_assoc. exact Hpts.
      * rewrite <- app_assoc. exact Hnum.
      * cbn in Hlen. lia.
Qed.

(** The body of the loop reads the uniforms only through the radius and
    the steepness. *)
Lemma loopBody_ext (u u' : uniforms) (currentPos : vec2)
      (totals : R * R) (point : vec3) :
  u_influenceRadius u = u_influenceRadius u' ->
  u_falloffSteepness u = u_falloffSteepness u' ->
  loopBody u currentPos totals point = loopBody u' currentPos totals point.
Proof.
  intros Hr Hs. unfold loopBody, falloff. rewrite Hr, Hs. reflexivity.
Qed.

Lemma fold_loopBody_ext (u u' : uniforms) (currentPos : vec2) (pts : list vec3) :
  u_influenceRadius u = u_influenceRadius u' ->
  u_falloffSteepness u = u_falloffSteepness u' ->
  forall totals,
    fold_left (loopBody u currentPos) pts totals
    = fold_left (loopBody u' currentPos) pts totals.
Proof.
  intros Hr Hs. induction pts as [ | point pts IH ]; intros totals; cbn.
  - reflexivity.
  - rewrite (loopBody_ext u u' currentPos totals point Hr Hs). apply IH.
Qed.

(** A point whose value is zero is skipped by the [continue]. *)
Lemma loopBody_zero (u : uniforms) (currentPos : vec2)
      (totals : R * R) (point : vec3) :
  v3z point = 0 -> loopBody u currentPos totals point = totals.
Proof.
  intros Hz. unfold loopBody. destruct totals as [ti tw].
  destruct (Req_dec_T (v3z point) 0.0) as [_ | Hne]; [ reflexivity | ].
  exfalso. apply Hne. lra.
Qed.

(** A point at or beyond the radius fails the guard
    [distance < u_influenceRadius]. *)
Lemma loopBody_outside (u : uniforms) (currentPos : vec2)
      (totals : R * R) (point : vec3) :
  u_influenceRadius u <= haversineDistance currentPos (xy point) ->
  loopBody u currentPos totals point = totals.
Proof.
  intros Hfar. unfold loopBody. destruct totals as [ti tw].
  destruct (Req_dec_T (v3z point) 0.0); [ reflexivity | ].
  destruct (Rlt_dec (haversineDistance currentPos (xy point)) (u_influenceRadius u));
    [ lra | reflexivity ].
Qed.

Lemma fold_loopBody_filter (u : uniforms) (currentPos : vec2) (pts : list vec3) :
  forall totals,
    fold_left (loopBody u currentPos) (filter carriesValue pts) totals
    = fold_left (loopBody u currentPos) pts totals.
Proof.
  induction pts as [ | point pts IH ]; intros totals; cbn [filter fold_left].
  - reflexivity.
  - unfold carriesValue at 1.
    destruct (Req_dec_T (v3z point) 0) as [Hz | Hnz].
    + rewrite (loopBody_zero u currentPos totals point Hz). apply IH.
    + cbn [fold_left]. apply IH.
Qed.

Lemma interpolatedValue_fold (u : uniforms) (currentPos : vec2) :
  u_numPoints u = Z.of_nat (length (u_points u)) ->
  (length (u_points u) <= 250)%nat ->
  interpolatedValue u currentPos
  = (let '(totalInfluence, totalWeight) :=
       fold_left (loopBody u currentPos) (u_points u) (0.0, 0.0) in
     if Rgt_dec totalWeight 0.0 then totalInfluence / totalWeight * 1.15 else 0.0).
Proof.
  intros Hnum Hlen. unfold interpolatedValue.
  pose proof (loop_fold u currentPos (u_points u) [] 250 (0.0, 0.0)
                         eq_refl Hnum Hlen) as E.
  cbn [length] in E. rewrite E. reflexivity.
Qed.

(** Uniform states over a point list and over the same list without its
    zero-value points blend to the same value. *)
Lemma interpolatedValue_filter (u u' : uniforms) (currentPos : vec2) :
  u_numPoints u = Z.of_nat (length (u_points u)) ->
  (length (u_points u) <= 250)%nat ->
  u_points u' = filter carriesValue (u_points u) ->
  u_numPoints u' = Z.of_nat (length (u_points u')) ->
  u_influenceRadius u' = u_influenceRadius u ->
  u_falloffSteepness u' = u_falloffSteepness u ->
  interpolatedValue u' currentPos = interpolatedValue u currentPos.
Proof.
  intros Hnum Hlen Hpts Hnum' Hr Hs.
  rewrite (interpolatedValue_fold u currentPos Hnum Hlen).
  rewrite (interpolatedValue_fold u' currentPos Hnum').
  2:{ rewrite Hpts. etransitivity; [ apply filter_length_le | exact Hlen ]. }
  rewrite Hpts, (fold_loopBody_ext u' u currentPos _ Hr Hs), fold_loopBody_filter.
  reflexivity.
Qed.

(** A single point of value 1 at distance 0. *)
Lemma interpolatedValue_single (u : uniforms) (currentPos : vec2) (q : vec2) :
  0 < u_influenceRadius u -> 0 < u_falloffSteepness u ->
  u_points u = [Vec3 (v2x q) (v2y q) 1] -> u_numPoints u = 1%Z ->
  haversineDistance currentPos q = 0 ->
  interpolatedValue u currentPos = 1 * 1.15.
Proof.
  intros Hr Hs Hpts Hnum Hd.
  rewrite interpolatedValue_fold; rewrite Hpts; [ | rewrite Hnum; reflexivity | cbn; lia ].
  cbn [fold_left]. unfold loopBody. cbn [v3z].
  destruct (Req_dec_T 1 0.0) as [Habs | _]; [ lra | ].
  replace (xy (Vec3 (v2x q) (v2y q) 1)) with q by (destruct q; reflexivity).
  rewrite Hd.
  destruct (Rlt_dec 0 (u_influenceRadius u)) as [_ | Habs]; [ | contradiction ].
  rewrite (falloff_at_centre u Hs).
  destruct (Rgt_dec (0.0 + 1 * 1) 0.0) as [_ | Habs]; [ | lra ].
  decimals. field.
Qed.

End Blend.

(* ================================================================= *)
(** ** Colour bands *)

Section Colour.
Import GLSL Shaders Config Spec.

(** Decides every comparison of the goal and closes the branches by linear
    arithmetic. *)
Ltac compare_all :=
  repeat match goal with
         | |- context [Rle_dec ?a ?b] => destruct (Rle_dec a b)
         | |- context [Rlt_dec ?a ?b] => destruct (Rlt_dec a b)
         | H : context [Rle_dec ?a ?b] |- _ => destruct (Rle_dec a b)
         end;
  try reflexivity; try lra.

Lemma clamp_unit (v : R) :
  (v <= 0 -> clamp v 0.0 1.0 = 0) /\
  (0 <= v <= 1 -> clamp v 0.0 1.0 = v) /\
  (1 <= v -> clamp v 0.0 1.0 = 1).
Proof.
  unfold clamp, Rmin, Rmax. repeat split; intros H; compare_all.
Qed.

Lemma clamp_unit' (v : R) :
  (v <= 0 -> clamp v 0 1 = 0) /\
  (0 <= v <= 1 -> clamp v 0 1 = v) /\
  (1 <= v -> clamp v 0 1 = 1).
Proof.
  unfold clamp, Rmin, Rmax. repeat split; intros H; compare_all.
Qed.

Lemma clamp_idempotent (v : R) :
  clamp (clamp v 0.0 1.0) 0.0 1.0 = clamp v 0.0 1.0.
Proof.
  destruct (clamp_unit v) as (Hlow & Hmid & Hhigh).
  destruct (Rle_lt_dec v 0) as [H | H].
  - rewrite (Hlow H). apply clamp_unit. lra.
  - destruct (Rle_lt_dec v 1) as [H' | H'].
    + rewrite Hmid by lra. apply Hmid. lra.
    + rewrite Hhigh by lra. apply clamp_unit. lra.
Qed.

Lemma getColor_bands (u : uniforms) (v : R) :
  (v < 0.2 -> getColor u v = gradientColor u 0) /\
  (0.2 <= v < 0.4 -> getColor u v = gradientColor u 1) /\
  (0.4 <= v < 0.6 -> getColor u v = gradientColor u 2) /\
  (0.6 <= v < 0.8 -> getColor u v = gradientColor u 3) /\
  (0.8 <= v -> getColor u v = gradientColor u 4).
Proof.
  unfold getColor, clamp, Rmin, Rmax. repeat split; intros H; compare_all.
Qed.

Lemma colorFor_reference_bands (c0 c1 c2 c3 c4 : R * R * R) (v : R) :
  (v < 0.2 -> colorFor (referenceTable c0 c1 c2 c3 c4) v = Some c0) /\
  (0.2 <= v < 0.4 -> colorFor (referenceTable c0 c1 c2 c3 c4) v = Some c1) /\
  (0.4 <= v < 0.6 -> colorFor (referenceTable c0 c1 c2 c3 c4) v = Some c2) /\
  (0.6 <= v < 0.8 -> colorFor (referenceTable c0 c1 c2 c3 c4) v = Some c3) /\
  (0.8 <= v -> colorFor (referenceTable c0 c1 c2 c3 c4) v = Some c4).
Proof.
  unfold colorFor, referenceTable, clamp, Rmin, Rmax. cbn [fold_left stop color].
  repeat split; intros H; compare_all.
Qed.

Lemma band_cover (v : R) :
  v < 0.2 \/ 0.2 <= v < 0.4 \/ 0.4 <= v < 0.6 \/ 0.6 <= v < 0.8 \/ 0.8 <= v.
Proof. lra. Qed.

End Colour.

(* ================================================================= *)
(** ** The layer *)

Section LayerLemmas.
Import GLSL Config Layer Spec.

Lemma prepareUniformData_oversized (this : PrecipitationLayer) :
  (250 < length (points this))%nat ->
  prepareUniformData this = (Throw "Maximum 250 data points supported", this).
Proof.
  intros Hlen. unfold prepareUniformData, bind, get.
  destruct (Nat.ltb_spec 250 (length (points this))); [ reflexivity | lia ].
Qed.

Lemma prepareUniformData_fits (this : PrecipitationLayer) :
  (length (points this) <= 250)%nat ->
  prepareUniformData this
  = (Normal tt,
     set_gradientStops (Some (gradientStopFloats COLOR_GRADIENT))
       (set_gradientColors (Some (gradientColorFloats COLOR_GRADIENT))
          (set_pointsArray (Some (pointsFloats (points this))) this))).
Proof.
  intros Hlen. unfold prepareUniformData, bind, get.
  destruct (Nat.ltb_spec 250 (length (points this))); [ lia | reflexivity ].
Qed.

(** [updatePoints] assigns [this.points] before the count is validated, so
    the assignment survives the [throw]. *)
Lemma updatePoints_oversized (newPoints : list SamplePoint) (this : PrecipitationLayer) :
  (250 < length newPoints)%nat ->
  updatePoints newPoints this
  = (Throw "Maximum 250 data points supported", set_points newPoints this).
Proof.
  intros Hlen. unfold updatePoints, bind, assign.
  rewrite prepareUniformData_oversized by exact Hlen. reflexivity.
Qed.

Lemma updatePoints_fits (newPoints : list SamplePoint) (this : PrecipitationLayer) :
  (length newPoints <= 250)%nat ->
  updatePoints newPoints this
  = (Normal tt,
     triggerRepaint
       (set_gradientStops (Some (gradientStopFloats COLOR_GRADIENT))
          (set_gradientColors (Some (gradientColorFloats COLOR_GRADIENT))
             (set_pointsArray (Some (pointsFloats newPoints))
                (set_points newPoints this))))).
Proof.
  intros Hlen. unfold updatePoints, bind, assign.
  rewrite prepareUniformData_fits by exact Hlen. reflexivity.
Qed.

Lemma onAdd_oversized (map : Map) (gl : WebGL) (this : PrecipitationLayer) :
  vertexCompiles gl = true -> fragmentCompiles gl = true -> programLinks gl = true ->
  (250 < length (points this))%nat ->
  fst (onAdd map gl this) = Throw "Maximum 250 data points supported".
Proof.
  intros Hv Hf Hl Hlen.
  unfold onAdd, createShader, createProgram.
  rewrite Hv, Hf, Hl.
  unfold bind, assign, get. cbn [program set_program set_map].
  rewrite prepareUniformData_oversized; [ reflexivity | exact Hlen ].
Qed.

(** The concrete layer is what the constructor returns, and adding it to
    the map succeeds. *)
Lemma newLayer_constructed :
  constructor "precipitation-layer" [bergen] emptyConfig = Normal newLayer.
Proof. reflexivity. Qed.

Lemma activeLayer_added : fst (onAdd hostMap workingGL newLayer) = Normal tt.
Proof. reflexivity. Qed.

Lemma triples_pointsFloats (pts : list SamplePoint) :
  triples (pointsFloats pts) = List.map uniformPoint pts.
Proof.
  induction pts as [ | point pts IH ]; [ reflexivity | ].
  cbn. f_equal. exact IH.
Qed.

Lemma uniform3fv_pointsFloats (pts : list SamplePoint) :
  (length pts <= 250)%nat ->
  uniform3fv 250 (pointsFloats pts) = List.map uniformPoint pts.
Proof.
  intros Hlen. unfold uniform3fv. rewrite triples_pointsFloats.
  apply firstn_all2. rewrite length_map. exact Hlen.
Qed.

Lemma map_uniformPoint_filter (pts : list SamplePoint) :
  List.map uniformPoint (filter hasValue pts)
  = filter carriesValue (List.map uniformPoint pts).
Proof.
  induction pts as [ | point pts IH ]; [ reflexivity | ].
  cbn [filter List.map]. unfold hasValue at 1, carriesValue at 1. cbn [uniformPoint v3z].
  destruct (Req_dec_T (value point) 0); [ exact IH | cbn [List.map]; f_equal; exact IH ].
Qed.

(** The uniforms of the frame drawn after a point update that fits. *)
Lemma render_after_updatePoints (newPoints : list SamplePoint) (canvas : Canvas)
      (this : PrecipitationLayer) (host : Map) :
  (length newPoints <= 250)%nat -> map this = Some host ->
  exists u : Shaders.uniforms,
    fst ((updatePoints newPoints ;;; render canvas) this) = Normal u /\
    Shaders.u_points u = List.map uniformPoint newPoints /\
    Shaders.u_numPoints u = Z.of_nat (length newPoints) /\
    Shaders.u_influenceRadius u = influenceRadius (config this) /\
    Shaders.u_falloffSteepness u = falloffSteepness (config this).
Proof.
  intros Hlen Hmap. unfold bind at 1.
  rewrite (updatePoints_fits newPoints this Hlen).
  destruct this as [i p c pr pb lo mp pa gc gs rp]. cbn [map] in Hmap. subst mp.
  eexists. split; [ reflexivity | ].
  cbn [Shaders.u_points Shaders.u_numPoints Shaders.u_influenceRadius
       Shaders.u_falloffSteepness points config].
  rewrite (uniform3fv_pointsFloats newPoints Hlen). repeat split.
Qed.

End LayerLemmas.

(* ================================================================= *)
(** ** The claims *)

Section Claims.
Import GLSL Shaders Config Layer Spec.

(** C1, as the code has it: [updatePoints] with more than 250 sample points
    throws the error of the point-count check.  The call leaves the cached
    arrays of the previous point set, the configuration and the map as they
    were and requests no repaint, but [this.points] is the rejected list:
    [updatePoints] assigns it before [prepareUniformData] checks the count,
    as the constructor does before [onAdd]. *)
Theorem updatePoints_oversized_throws_after_assigning
        (newPoints : list SamplePoint) (this : PrecipitationLayer) :
  (250 < length newPoints)%nat ->
  fst (updatePoints newPoints this) = Throw "Maximum 250 data points supported" /\
  snd (updatePoints newPoints this) = set_points newPoints this /\
  points (snd (updatePoints newPoints this)) = newPoints /\
  pointsArray (snd (updatePoints newPoints this)) = pointsArray this /\
  gradientColors (snd (updatePoints newPoints this)) = gradientColors this /\
  gradientStops (snd (updatePoints newPoints this)) = gradientStops this /\
  config (snd (updatePoints newPoints this)) = config this /\
  map (snd (updatePoints newPoints this)) = map this /\
  repaints (snd (updatePoints newPoints this)) = repaints this.
Proof.
  intros Hlen. rewrite (updatePoints_oversized newPoints this Hlen).
  repeat split.
Qed.

Lemma updatePoints_oversized_throws_after_assigning_witness :
  (250 < length tooManyPoints)%nat /\
  fst (updatePoints tooManyPoints activeLayer)
    = Throw "Maximum 250 data points supported" /\
  pointsArray (snd (updatePoints tooManyPoints activeLayer))
    = Some (pointsFloats [bergen]).
Proof.
  assert (Hlen : (250 < length tooManyPoints)%nat)
    by (unfold tooManyPoints; rewrite repeat_length; lia).
  destruct (updatePoints_oversized_throws_after_assigning tooManyPoints activeLayer Hlen)
    as (Hthrow & _ & _ & Harray & _).
  split; [ exact Hlen | split; [ exact Hthrow | ] ].
  rewrite Harray. reflexivity.
Defined.

(** C1 as stated fails: the layer over the one point [bergen] is on a map;
    [updatePoints] with 251 points throws, and afterwards the points of the
    instance are the 251 rejected ones, not the point it had. *)
Lemma updatePoints_251_does_not_retain_points :
  length tooManyPoints = 251%nat /\
  points activeLayer = [bergen] /\
  fst (updatePoints tooManyPoints activeLayer)
    = Throw "Maximum 250 data points supported" /\
  points (snd (updatePoints tooManyPoints activeLayer)) = tooManyPoints /\
  points (snd (updatePoints tooManyPoints activeLayer)) <> points activeLayer.
Proof.
  assert (Hlen : length tooManyPoints = 251%nat) by apply repeat_length.
  rewrite updatePoints_oversized by (rewrite Hlen; lia).
  repeat split; try assumption; try reflexivity.
  cbn [snd points set_points]. intros E.
  apply (f_equal (@length SamplePoint)) in E. rewrite Hlen in E. discriminate E.
Qed.

(** C2, as the code has it: for a point at distance [d] with
    [0 < d < influenceRadius] and a positive steepness, the falloff is
    [0.5 + 0.5 * cos (nd * 3.14159)] with
    [nd = (d / influenceRadius) ^ falloffSteepness], where [3.14159] is the
    literal of the shader and not pi; [nd] and the falloff lie between 0
    and 1; the point adds [value * falloff * falloff^2] to the total
    influence and [falloff^2] to the total weight; and a point at
    [d >= influenceRadius] is skipped by the guard of the loop and adds
    exactly nothing. *)
Theorem falloff_inside_radius (u : uniforms) (d : R) :
  0 < d < u_influenceRadius u -> 0 < u_falloffSteepness u ->
  let nd := Rpower (d / u_influenceRadius u) (u_falloffSteepness u) in
  falloff u d = 0.5 + 0.5 * cos (nd * 3.14159) /\
  0 <= nd <= 1 /\
  0 <= falloff u d <= 1 /\
  (forall currentPos point totalInfluence totalWeight,
      v3z point <> 0 -> haversineDistance currentPos (xy point) = d ->
      loopBody u currentPos (totalInfluence, totalWeight) point
      = (totalInfluence + v3z point * falloff u d * (falloff u d * falloff u d),
         totalWeight + falloff u d * falloff u d)) /\
  (forall currentPos point totals,
      u_influenceRadius u <= haversineDistance currentPos (xy point) ->
      loopBody u currentPos totals point = totals).
Proof.
  intros Hd Hs nd.
  destruct (falloff_inside u d Hd Hs) as (E & Hnd & Hf).
  fold nd in Hnd.
  split; [ exact E | ].
  split; [ lra | ].
  split; [ lra | ].
  split.
  - intros currentPos point ti tw Hv Hdist. unfold loopBody. rewrite Hdist.
    destruct (Req_dec_T (v3z point) 0.0) as [Hz | _]; [ exfalso; apply Hv; lra | ].
    destruct (Rlt_dec d (u_influenceRadius u)) as [_ | Hn]; [ reflexivity | lra ].
  - intros currentPos point totals. apply loopBody_outside.
Qed.

Lemma falloff_inside_radius_witness :
  0 < 12.5 < u_influenceRadius linearUniforms /\
  0 < u_falloffSteepness linearUniforms /\
  0 <= falloff linearUniforms 12.5 <= 1.
Proof.
  assert (Hd : 0 < 12.5 < u_influenceRadius linearUniforms) by (cbn; lra).
  assert (Hs : 0 < u_falloffSteepness linearUniforms) by (cbn; lra).
  split; [ exact Hd | split; [ exact Hs | ] ].
  apply (falloff_inside_radius linearUniforms 12.5 Hd Hs).
Defined.

(** C2 as stated fails: with radius 25 and steepness 1, a point at 12.5 km
    has [nd = 1/2]; the formula with pi gives exactly 0.5 there, and the
    shader, which multiplies by 3.14159, gives more than 0.5. *)
Lemma falloff_is_not_the_pi_formula :
  0 < 12.5 < u_influenceRadius linearUniforms /\
  0.5 + 0.5 * cos (Rpower (12.5 / u_influenceRadius linearUniforms)
                          (u_falloffSteepness linearUniforms) * real_pi) = 0.5 /\
  0.5 < falloff linearUniforms 12.5 /\
  falloff linearUniforms 12.5
  <> 0.5 + 0.5 * cos (Rpower (12.5 / u_influenceRadius linearUniforms)
                             (u_falloffSteepness linearUniforms) * real_pi).
Proof.
  pose proof real_pi_above_literal as Hpi.
  assert (Hhalf : Rpower (12.5 / 25.0) 1.0 = 0.5).
  { replace 1.0 with 1 by lra. rewrite Rpower_1 by lra. lra. }
  cbn [u_influenceRadius u_falloffSteepness linearUniforms].
  assert (Hformula : 0.5 + 0.5 * cos (Rpower (12.5 / 25.0) 1.0 * real_pi) = 0.5).
  { rewrite Hhalf. replace (0.5 * real_pi) with (real_pi / 2) by lra.
    rewrite cos_PI2. lra. }
  assert (Hcode : 0.5 < falloff linearUniforms 12.5).
  { unfold falloff. cbn [u_influenceRadius u_falloffSteepness linearUniforms].
    rewrite pow_pos_base by lra. rewrite Hhalf.
    assert (Hc : 0 < cos (0.5 * 3.14159)) by (apply cos_gt_0; lra).
    lra. }
  split; [ lra | split; [ exact Hformula | split; [ exact Hcode | ] ] ].
  rewrite Hformula. lra.
Qed.

(** C3: for a layer on a map and any list of at most 250 sample points,
    the frame drawn after [updatePoints] with the list and the frame drawn
    after [updatePoints] with the list without its zero-value points both
    come to be drawn, and blend to the same [interpolatedValue] at every
    geographic position: a point of value 0 adds neither influence nor
    weight. *)
Theorem zero_value_points_do_not_affect_blend
        (this : PrecipitationLayer) (host : Map) (canvas : Canvas)
        (pts : list SamplePoint) (currentPos : vec2) :
  (length pts <= 250)%nat -> map this = Some host ->
  exists u u' : uniforms,
    fst ((updatePoints pts ;;; render canvas) this) = Normal u /\
    fst ((updatePoints (filter hasValue pts) ;;; render canvas) this) = Normal u' /\
    u_points u = List.map uniformPoint pts /\
    u_points u' = List.map uniformPoint (filter hasValue pts) /\
    interpolatedValue u' currentPos = interpolatedValue u currentPos.
Proof.
  intros Hlen Hmap.
  assert (Hlen' : (length (filter hasValue pts) <= 250)%nat)
    by (etransitivity; [ apply filter_length_le | exact Hlen ]).
  destruct (render_after_updatePoints pts canvas this host Hlen Hmap)
    as (u & Hu & Hpts & Hnum & Hr & Hs).
  destruct (render_after_updatePoints (filter hasValue pts) canvas this host Hlen' Hmap)
    as (u' & Hu' & Hpts' & Hnum' & Hr' & Hs').
  exists u, u'. repeat split; try assumption.
  apply interpolatedValue_filter.
  - rewrite Hnum, Hpts, length_map. reflexivity.
  - rewrite Hpts, length_map. exact Hlen.
  - rewrite Hpts', Hpts. apply map_uniformPoint_filter.
  - rewrite Hnum', Hpts', length_map. reflexivity.
  - congruence.
  - congruence.
Qed.

Lemma zero_value_points_do_not_affect_blend_witness :
  (length [bergen; dryPoint] <= 250)%nat /\
  map activeLayer = Some hostMap /\
  filter hasValue [bergen; dryPoint] = [bergen] /\
  exists u u' : uniforms,
    fst ((updatePoints [bergen; dryPoint] ;;; render hostCanvas) activeLayer) = Normal u /\
    fst ((updatePoints (filter hasValue [bergen; dryPoint]) ;;; render hostCanvas)
           activeLayer) = Normal u' /\
    u_points u = List.map uniformPoint [bergen; dryPoint] /\
    u_points u' = List.map uniformPoint (filter hasValue [bergen; dryPoint]) /\
    interpolatedValue u' (Vec2 5.8 60.3) = interpolatedValue u (Vec2 5.8 60.3).
Proof.
  assert (Hlen : (length [bergen; dryPoint] <= 250)%nat) by (cbn; lia).
  assert (Hmap : map activeLayer = Some hostMap) by reflexivity.
  split; [ exact Hlen | split; [ exact Hmap | split ] ].
  - cbn [filter]. unfold hasValue. cbn [value bergen dryPoint].
    destruct (Req_dec_T 0.92 0) as [H | _]; [ lra | ].
    destruct (Req_dec_T 0.0 0) as [_ | H]; [ reflexivity | lra ].
  - exact (zero_value_points_do_not_affect_blend
             activeLayer hostMap hostCanvas [bergen; dryPoint] (Vec2 5.8 60.3)
             Hlen Hmap).
Defined.

(** C4: [haversineDistance] is symmetric, it is 0 from every point to
    itself, and between (179.9, 0) and (-179.9, 0) the longitude difference
    it uses is 0.2 degrees, so the distance is the arc of 0.2 degrees,
    between 22 and 23 km. *)
Theorem haversineDistance_symmetric_zero_and_wrap_aware :
  (forall p q : vec2, haversineDistance p q = haversineDistance q p) /\
  (forall p : vec2, haversineDistance p p = 0) /\
  lngDifference 179.9 (-179.9) = 0.2 /\
  haversineDistance (Vec2 179.9 0) (Vec2 (-179.9) 0)
    = EARTH_RADIUS * degToRad 0.2 /\
  22 < haversineDistance (Vec2 179.9 0) (Vec2 (-179.9) 0) < 23.
Proof.
  assert (E : haversineDistance (Vec2 179.9 0) (Vec2 (-179.9) 0)
              = EARTH_RADIUS * degToRad 0.2).
  { replace (Vec2 179.9 0) with (Vec2 179.9 0.0) by (f_equal; lra).
    replace (Vec2 (-179.9) 0) with (Vec2 (-179.9) 0.0) by (f_equal; lra).
    rewrite haversineDistance_antimeridian. unfold EARTH_RADIUS, degToRad. lra. }
  split; [ exact haversineDistance_sym | ].
  split; [ exact haversineDistance_same | ].
  split; [ | split; [ exact E | ] ].
  - destruct (lngDifference_cases 179.9 (-179.9)) as [[H L] | [[H L] | [H L]]]; lra.
  - rewrite E. unfold EARTH_RADIUS, degToRad, PI. lra.
Qed.

(** C5: with a single point of value 1 at distance 0 from the query
    position (positive radius and steepness), [interpolatedValue] is
    [1 * 1.15], which is more than 1; [getColor] clamps it to 1 and returns
    the last colour, [u_gradientColors[4]]; and a fragment of the main world
    at that position is drawn in that colour with alpha 0.8. *)
Theorem single_point_value_is_boosted_then_clamped
        (u : uniforms) (currentPos q : vec2) :
  0 < u_influenceRadius u -> 0 < u_falloffSteepness u ->
  u_points u = [Vec3 (v2x q) (v2y q) 1] -> u_numPoints u = 1%Z ->
  haversineDistance currentPos q = 0 ->
  interpolatedValue u currentPos = 1 * 1.15 /\
  1 < interpolatedValue u currentPos /\
  clamp (interpolatedValue u currentPos) 0.0 1.0 = 1 /\
  getColor u (interpolatedValue u currentPos) = gradientColor u 4 /\
  (forall v_screenPos : vec2,
      screenToGeo u v_screenPos = (currentPos, 0) ->
      main u v_screenPos
      = Vec4 (v3x (gradientColor u 4) / 255.0) (v3y (gradientColor u 4) / 255.0)
             (v3z (gradientColor u 4) / 255.0) 0.8).
Proof.
  intros Hr Hs Hpts Hnum Hd.
  pose proof (interpolatedValue_single u currentPos q Hr Hs Hpts Hnum Hd) as E.
  assert (Hgt : 1 < interpolatedValue u currentPos) by (rewrite E; lra).
  assert (Hcol : getColor u (interpolatedValue u currentPos) = gradientColor u 4)
    by (apply getColor_bands; lra).
  repeat split; try assumption.
  - apply clamp_unit. lra.
  - intros v_screenPos Hgeo. unfold main. rewrite Hgeo.
    destruct (Req_dec_T 0 0.0) as [_ | Hn]; [ | lra ].
    destruct (Rle_dec (interpolatedValue u currentPos) 0.0) as [Hle | _]; [ lra | ].
    rewrite Hcol. reflexivity.
Qed.

Lemma single_point_value_is_boosted_then_clamped_witness :
  interpolatedValue singlePointUniforms (Vec2 10.0 60.0) = 1 * 1.15 /\
  getColor singlePointUniforms (interpolatedValue singlePointUniforms (Vec2 10.0 60.0))
  = Vec3 0 60 150 /\
  main singlePointUniforms (Vec2 0 0) = Vec4 (0 / 255.0) (60 / 255.0) (150 / 255.0) 0.8.
Proof.
  assert (Hr : 0 < u_influenceRadius singlePointUniforms) by (cbn; lra).
  assert (Hs : 0 < u_falloffSteepness singlePointUniforms) by (cbn; lra).
  assert (Hgeo : screenToGeo singlePointUniforms (Vec2 0 0) = (Vec2 10.0 60.0, 0))
    by (apply (screenToGeo_centre singlePointUniforms); cbn; lra).
  destruct (single_point_value_is_boosted_then_clamped
              singlePointUniforms (Vec2 10.0 60.0) (Vec2 10.0 60.0)
              Hr Hs eq_refl eq_refl (haversineDistance_same (Vec2 10.0 60.0)))
    as (E & _ & _ & Hc & Hmain).
  split; [ exact E | split; [ rewrite Hc; reflexivity | ] ].
  rewrite (Hmain (Vec2 0 0) Hgeo). reflexivity.
Defined.

(** C6, as the code has it: on uniforms uploaded from a gradient table of
    five stops, whatever its thresholds, [getColor] only looks at its input
    clamped to [0, 1] and returns the colour of the slot that the fixed
    boundaries 0.2, 0.4, 0.6, 0.8 of the shader choose, a step function
    with no interpolation.  When the thresholds of the table are
    0.0, 0.2, 0.4, 0.6, 0.8 this is what the specification's [colorFor]
    returns on the table, the colour of the last stop whose threshold is at
    most the value; 0.19 and 0.0 get the same colour, the first, and 0.2
    gets the colour of the second stop. *)
Theorem getColor_is_the_step_function_of_the_reference_table
        (u : uniforms) (t0 t1 t2 t3 t4 : R) (c0 c1 c2 c3 c4 : R * R * R) :
  let table := [ {| stop := t0; color := c0 |}; {| stop := t1; color := c1 |};
                 {| stop := t2; color := c2 |}; {| stop := t3; color := c3 |};
                 {| stop := t4; color := c4 |} ] in
  u_gradientColors u = uniform3fv 5 (gradientColorFloats table) ->
  u_gradientStops u = uniform1fv 5 (gradientStopFloats table) ->
  (forall v : R, getColor u v = getColor u (clamp v 0.0 1.0)) /\
  (forall v : R,
      (v < 0.2 -> getColor u v = rgb c0) /\
      (0.2 <= v < 0.4 -> getColor u v = rgb c1) /\
      (0.4 <= v < 0.6 -> getColor u v = rgb c2) /\
      (0.6 <= v < 0.8 -> getColor u v = rgb c3) /\
      (0.8 <= v -> getColor u v = rgb c4)) /\
  (t0 = 0.0 -> t1 = 0.2 -> t2 = 0.4 -> t3 = 0.6 -> t4 = 0.8 ->
   forall v : R, option_map rgb (colorFor table v) = Some (getColor u v)) /\
  getColor u 0.19 = getColor u 0.0 /\
  getColor u 0.0 = rgb c0 /\
  getColor u 0.2 = rgb c1.
Proof.
  intros table Hcolors _.
  assert (Hslot : gradientColor u 0 = rgb c0 /\ gradientColor u 1 = rgb c1 /\
                  gradientColor u 2 = rgb c2 /\ gradientColor u 3 = rgb c3 /\
                  gradientColor u 4 = rgb c4).
  { unfold gradientColor. rewrite Hcolors. unfold table.
    destruct c0 as [[? ?] ?], c1 as [[? ?] ?], c2 as [[? ?] ?],
             c3 as [[? ?] ?], c4 as [[? ?] ?].
    repeat split. }
  destruct Hslot as (H0 & H1 & H2 & H3 & H4).
  assert (Hbands : forall v : R,
             (v < 0.2 -> getColor u v = rgb c0) /\
             (0.2 <= v < 0.4 -> getColor u v = rgb c1) /\
             (0.4 <= v < 0.6 -> getColor u v = rgb c2) /\
             (0.6 <= v < 0.8 -> getColor u v = rgb c3) /\
             (0.8 <= v -> getColor u v = rgb c4)).
  { intros v. destruct (getColor_bands u v) as (G0 & G1 & G2 & G3 & G4).
    rewrite <- H0, <- H1, <- H2, <- H3, <- H4.
    repeat split; assumption. }
  split; [ | split; [ exact Hbands | split; [ | split; [ | split ] ] ] ].
  - intros v. unfold getColor. rewrite clamp_idempotent. reflexivity.
  - intros -> -> -> -> -> v.
    destruct (colorFor_reference_bands c0 c1 c2 c3 c4 v) as (S0 & S1 & S2 & S3 & S4).
    destruct (Hbands v) as (G0 & G1 & G2 & G3 & G4).
    unfold table. fold (referenceTable c0 c1 c2 c3 c4).
    destruct (band_cover v) as [B | [B | [B | [B | B]]]].
    + rewrite (S0 B), (G0 B). reflexivity.
    + rewrite (S1 B), (G1 B). reflexivity.
    + rewrite (S2 B), (G2 B). reflexivity.
    + rewrite (S3 B), (G3 B). reflexivity.
    + rewrite (S4 B), (G4 B). reflexivity.
  - transitivity (rgb c0).
    + apply Hbands. lra.
    + symmetry. apply Hbands. lra.
  - apply Hbands. lra.
  - apply Hbands. lra.
Qed.

Lemma getColor_is_the_step_function_of_the_reference_table_witness :
  exists u : uniforms,
    fst (render hostCanvas activeLayer) = Normal u /\
    u_gradientColors u = uniform3fv 5 (gradientColorFloats COLOR_GRADIENT) /\
    getColor u 0.19 = getColor u 0.0 /\
    getColor u 0.0 = Vec3 135 206 250 /\
    getColor u 0.2 = Vec3 100 180 230.
Proof.
  eexists. split; [ reflexivity | ]. split; [ reflexivity | ].
  match goal with
  | |- getColor ?u _ = _ /\ _ =>
      destruct (getColor_is_the_step_function_of_the_reference_table
                  u 0.0 0.2 0.4 0.6 0.8
                  (135, 206, 250) (100, 180, 230) (70, 130, 180)
                  (30, 100, 200) (0, 60, 150) eq_refl eq_refl)
        as (_ & _ & _ & Hsame & Hfirst & Hnext)
  end.
  split; [ exact Hsame | split; [ exact Hfirst | exact Hnext ] ].
Defined.

(** C6 as stated fails: on the uniforms uploaded from a table with the
    thresholds 0.0, 0.5, 0.6, 0.7, 0.9, the last stop whose threshold is at
    most 0.3 is the first one, and [getColor] returns the colour of the
    second. *)
Lemma getColor_is_not_colorFor_on_other_thresholds :
  u_gradientColors Inputs.shiftedTableUniforms
    = uniform3fv 5 (gradientColorFloats Inputs.shiftedTable) /\
  u_gradientStops Inputs.shiftedTableUniforms
    = uniform1fv 5 (gradientStopFloats Inputs.shiftedTable) /\
  colorFor Inputs.shiftedTable 0.3 = Some (135, 206, 250) /\
  getColor Inputs.shiftedTableUniforms 0.3 = Vec3 100 180 230 /\
  option_map rgb (colorFor Inputs.shiftedTable 0.3)
  <> Some (getColor Inputs.shiftedTableUniforms 0.3).
Proof.
  assert (Hspec : colorFor Inputs.shiftedTable 0.3 = Some (135, 206, 250)).
  { unfold colorFor, Inputs.shiftedTable.
    rewrite (proj1 (proj2 (clamp_unit' 0.3))) by lra.
    cbn [fold_left stop color].
    repeat match goal with
           | |- context [Rle_dec ?a ?b] => destruct (Rle_dec a b)
           end; try lra; reflexivity. }
  assert (Hcode : getColor Inputs.shiftedTableUniforms 0.3 = Vec3 100 180 230).
  { rewrite (proj1 (proj2 (getColor_bands Inputs.shiftedTableUniforms 0.3))) by lra.
    reflexivity. }
  split; [ reflexivity | split; [ reflexivity | ] ].
  split; [ exact Hspec | split; [ exact Hcode | ] ].
  rewrite Hspec, Hcode. cbn [option_map rgb]. intros E.
  injection E as E _ _. lra.
Qed.

(** C7: for every longitude in [-180, 180] and latitude strictly between
    -85 and 85 degrees, projecting to Mercator unit coordinates and back
    gives the longitude and the latitude again; in real arithmetic the
    round trip is exact, so any deviation of the program is rounding. *)
Theorem mercator_roundtrip (lng lat : R) :
  -180 <= lng <= 180 -> -85 < lat < 85 ->
  mercatorXToLng (lngToMercatorX lng) = lng /\
  mercatorYToLat (latToMercatorY lat) = lat.
Proof.
  intros _ Hlat. split.
  - apply mercatorX_roundtrip.
  - apply mercatorY_roundtrip. exact Hlat.
Qed.

Lemma mercator_roundtrip_witness :
  -180 <= 10.25 <= 180 /\ -85 < 59.75 < 85 /\
  mercatorXToLng (lngToMercatorX 10.25) = 10.25 /\
  mercatorYToLat (latToMercatorY 59.75) = 59.75.
Proof.
  assert (Hlng : -180 <= 10.25 <= 180) by lra.
  assert (Hlat : -85 < 59.75 < 85) by lra.
  split; [ exact Hlng | split; [ exact Hlat | ] ].
  exact (mercator_roundtrip 10.25 59.75 Hlng Hlat).
Defined.

(** C8, as the code has it: for longitudes [a] and [b] in [-180, 180],
    [lngDifference a b] is the naive difference [b - a], corrected by -360
    when it is above 180 and by +360 when it is below -180; it lies in the
    closed interval [-180, 180], no angle congruent to [b - a] modulo 360
    is shorter, and it is -180 exactly when [b - a] is -180. *)
Theorem lngDifference_shortest_in_closed_interval (a b : R) :
  -180 <= a <= 180 -> -180 <= b <= 180 ->
  -180 <= lngDifference a b <= 180 /\
  (lngDifference a b = b - a \/ lngDifference a b = b - a - 360 \/
   lngDifference a b = b - a + 360) /\
  (forall k : Z, Rabs (lngDifference a b) <= Rabs (b - a + 360 * IZR k)) /\
  (lngDifference a b = -180 <-> b - a = -180).
Proof.
  intros Ha Hb.
  split; [ apply lngDifference_range; assumption | ].
  split; [ | split ].
  - destruct (lngDifference_cases a b) as [[H E] | [[H E] | [H E]]]; lra.
  - intros k. apply lngDifference_shortest; assumption.
  - destruct (lngDifference_cases a b) as [[H E] | [[H E] | [H E]]]; lra.
Qed.

Lemma lngDifference_shortest_in_closed_interval_witness :
  -180 <= 179.9 <= 180 /\ -180 <= -179.9 <= 180 /\
  -180 <= lngDifference 179.9 (-179.9) <= 180.
Proof.
  assert (Ha : -180 <= 179.9 <= 180) by lra.
  assert (Hb : -180 <= -179.9 <= 180) by lra.
  split; [ exact Ha | split; [ exact Hb | ] ].
  apply (lngDifference_shortest_in_closed_interval 179.9 (-179.9) Ha Hb).
Defined.

(** C8 as stated fails: from longitude 180 to longitude 0 the naive
    difference is -180, which neither test of [lngDifference] corrects, and
    -180 is outside the half-open interval (-180, 180]. *)
Lemma lngDifference_returns_minus_180 :
  -180 <= 180 <= 180 /\ -180 <= 0 <= 180 /\
  lngDifference 180 0 = -180 /\
  ~ (-180 < lngDifference 180 0 <= 180).
Proof.
  assert (E : lngDifference 180 0 = -180).
  { destruct (lngDifference_cases 180 0) as [[H L] | [[H L] | [H L]]]; lra. }
  repeat split; lra.
Qed.

(** C9: the band boundaries of [getColor] are the literals 0.2, 0.4, 0.6
    and 0.8 of the shader.  Two uniform states with the same
    [u_gradientColors] get the same colour for every value, whatever their
    [u_gradientStops] and however many stops were uploaded; and which of the
    five slots of [u_gradientColors] is read is a function of the value
    alone, with the boundaries at those literals. *)
Theorem getColor_ignores_gradientStops :
  (forall (u u' : uniforms) (v : R),
      u_gradientColors u = u_gradientColors u' -> getColor u v = getColor u' v) /\
  (exists slot : R -> nat,
      forall v : R,
        (slot v < 5)%nat /\
        (forall u : uniforms, getColor u v = nth (slot v) (u_gradientColors u) vec3_zero) /\
        (v < 0.2 -> slot v = 0%nat) /\
        (0.2 <= v < 0.4 -> slot v = 1%nat) /\
        (0.4 <= v < 0.6 -> slot v = 2%nat) /\
        (0.6 <= v < 0.8 -> slot v = 3%nat) /\
        (0.8 <= v -> slot v = 4%nat)).
Proof.
  split.
  - intros u u' v Hcolors. unfold getColor, gradientColor. rewrite Hcolors. reflexivity.
  - exists (fun v => if Rlt_dec v 0.2 then 0%nat
                     else if Rlt_dec v 0.4 then 1%nat
                     else if Rlt_dec v 0.6 then 2%nat
                     else if Rlt_dec v 0.8 then 3%nat else 4%nat).
    intros v.
    destruct (Rlt_dec v 0.2); [ | destruct (Rlt_dec v 0.4);
      [ | destruct (Rlt_dec v 0.6); [ | destruct (Rlt_dec v 0.8) ] ] ].
    all: split; [ lia | ].
    all: split; [ intros u; apply getColor_bands; lra | ].
    all: repeat split; intros; try reflexivity; lra.
Qed.

(** C10: the constructor accepts a list of more than 250 sample points: it
    returns an instance that holds the list, with no cached arrays.  The
    count is checked by [prepareUniformData], so adding that instance to a
    map (on a context where the shaders compile and link) throws the
    point-count error, while [updateConfig], which does not call
    [prepareUniformData], returns. *)
Theorem constructor_does_not_validate_point_count
        (id : string) (pts : list SamplePoint) (cfg : PartialConfig) :
  (250 < length pts)%nat ->
  exists this : PrecipitationLayer,
    constructor id pts cfg = Normal this /\
    points this = pts /\
    pointsArray this = None /\
    fst (prepareUniformData this) = Throw "Maximum 250 data points supported" /\
    (forall (map : Map) (gl : WebGL),
        vertexCompiles gl = true -> fragmentCompiles gl = true ->
        programLinks gl = true ->
        fst (onAdd map gl this) = Throw "Maximum 250 data points supported") /\
    (forall newConfig : PartialConfig, fst (updateConfig newConfig this) = Normal tt).
Proof.
  intros Hlen. eexists. split; [ reflexivity | ].
  split; [ reflexivity | split; [ reflexivity | split; [ | split ] ] ].
  - rewrite prepareUniformData_oversized by exact Hlen. reflexivity.
  - intros map gl Hv Hf Hl. apply onAdd_oversized; assumption.
  - intros newConfig. reflexivity.
Qed.

Lemma constructor_does_not_validate_point_count_witness :
  (250 < length tooManyPoints)%nat /\
  exists this : PrecipitationLayer,
    constructor "precipitation-layer" tooManyPoints emptyConfig = Normal this /\
    fst (onAdd hostMap workingGL this) = Throw "Maximum 250 data points supported".
Proof.
  assert (Hlen : (250 < length tooManyPoints)%nat)
    by (unfold tooManyPoints; rewrite repeat_length; lia).
  split; [ exact Hlen | ].
  destruct (constructor_does_not_validate_point_count
              "precipitation-layer" tooManyPoints emptyConfig Hlen)
    as (this & Hnew & _ & _ & _ & Hadd & _).
  exists this. split; [ exact Hnew | ].
  apply Hadd; reflexivity.
Defined.

End Claims.

(* ================================================================= *)
(** ** Further properties of the projection *)

Section ProjectionMore.
Import GLSL Shaders.

Lemma floor_bounds (x : R) : floor x <= x < floor x + 1.
Proof.
  unfold floor. destruct (base_Int_part x) as [Hle Hgt]. lra.
Qed.

Lemma floor_zero_iff (x : R) : floor x = 0 <-> 0 <= x < 1.
Proof.
  split.
  - intros E. pose proof (floor_bounds x) as H. rewrite E in H. lra.
  - apply floor_unit.
Qed.

Lemma mercatorX_roundtrip_back (x : R) : lngToMercatorX (mercatorXToLng x) = x.
Proof. unfold mercatorXToLng, lngToMercatorX. lra. Qed.

(** Back from latitude to Mercator Y, for every [y]: the arctangent lands
    in the open quadrant where the tangent inverts it. *)
Lemma mercatorY_roundtrip_back (y : R) : latToMercatorY (mercatorYToLat y) = y.
Proof.
  unfold latToMercatorY, mercatorYToLat.
  assert (Hc : 0 < PI) by (unfold PI; lra).
  set (z := exp (PI * (1.0 - 2.0 * y))).
  replace (PI / 4.0 + degToRad (2.0 * (atan z - PI / 4.0) * 180.0 / PI) / 2.0)
    with (atan z) by (unfold degToRad; decimals; field; lra).
  rewrite tan_atan. unfold z. rewrite ln_exp. decimals. field. lra.
Qed.

End ProjectionMore.

(* ================================================================= *)
(** ** Further properties of the blending loop *)

Section BlendMore.
Import GLSL Shaders Spec.

Lemma falloff_range (u : uniforms) (d : R) : 0 <= falloff u d <= 1.
Proof.
  unfold falloff.
  match goal with
  | |- _ <= _ + _ * cos ?x <= _ => pose proof (COS_bound x) as [Hlow Hhigh]
  end.
  lra.
Qed.

(** Whatever the loop keeps true of its totals at every step, it returns
    totals of which it is true. *)
Lemma loop_invariant (u : uniforms) (currentPos : vec2) (P : R * R -> Prop) :
  (forall totals j, P totals ->
                    P (loopBody u currentPos totals (nth j (u_points u) vec3_zero))) ->
  forall remaining i totals,
    P totals -> P (loop u currentPos remaining i totals).
Proof.
  intros Hstep remaining.
  induction remaining as [ | remaining IH ]; intros i totals Htotals; cbn [loop].
  - exact Htotals.
  - destruct (Z.of_nat i >=? u_numPoints u)%Z; [ exact Htotals | ].
    apply IH, Hstep, Htotals.
Qed.

(** An element of the uniform array, or the zero an index outside it
    reads. *)
Lemma nth_point_cases (pts : list vec3) (j : nat) :
  In (nth j pts vec3_zero) pts \/ nth j pts vec3_zero = vec3_zero.
Proof.
  destruct (Nat.lt_ge_cases j (length pts)) as [Hlt | Hge].
  - left. apply nth_In. exact Hlt.
  - right. apply nth_overflow. exact Hge.
Qed.

(** The loop reads the array only below [u_numPoints] and below 250. *)
Lemma loop_reads_prefix (u u' : uniforms) (currentPos : vec2) :
  u_numPoints u' = u_numPoints u ->
  u_influenceRadius u' = u_influenceRadius u ->
  u_falloffSteepness u' = u_falloffSteepness u ->
  forall remaining i totals,
    (forall j, (i <= j < i + remaining)%nat -> (Z.of_nat j < u_numPoints u)%Z ->
               nth j (u_points u') vec3_zero = nth j (u_points u) vec3_zero) ->
    loop u' currentPos remaining i totals = loop u currentPos remaining i totals.
Proof.
  intros Hnum Hr Hs remaining.
  induction remaining as [ | remaining IH ]; intros i totals Hsame; cbn [loop].
  - reflexivity.
  - rewrite Hnum.
    destruct (Z.geb_spec (Z.of_nat i) (u_numPoints u)) as [Hge | Hlt]; [ reflexivity | ].
    rewrite (Hsame i) by lia.
    rewrite (loopBody_ext u' u currentPos totals _ Hr Hs).
    apply IH. intros j Hj Hbelow. apply Hsame; [ lia | exact Hbelow ].
Qed.

(** The steps of the loop commute: each adds its own contribution. *)
Lemma loopBody_comm (u : uniforms) (currentPos : vec2) (totals : R * R) (p q : vec3) :
  loopBody u currentPos (loopBody u currentPos totals p) q
  = loopBody u currentPos (loopBody u currentPos totals q) p.
Proof.
  destruct totals as [ti tw]. unfold loopBody.
  destruct (Req_dec_T (v3z p) 0.0), (Req_dec_T (v3z q) 0.0);
    destruct (Rlt_dec (haversineDistance currentPos (xy p)) (u_influenceRadius u)),
             (Rlt_dec (haversineDistance currentPos (xy q)) (u_influenceRadius u));
    try reflexivity; f_equal; ring.
Qed.

End BlendMore.

(* ================================================================= *)
(** ** Further properties of the shader *)

Section ShaderProperties.
Import GLSL Shaders Spec Inputs.



Lemma screenToGeo_worldWrap (u : uniforms) (screenPos : vec2) :
  snd (screenToGeo u screenPos)
  = floor (lngToMercatorX (v2x (u_center u))
           + v2x screenPos * v2x (u_viewportSize u) * 0.5
             / (WORLD_SIZE * pow 2.0 (u_zoom u))).
Proof. reflexivity. Qed.


(** X3: a fragment whose Mercator X falls outside [0, 1), that is on a
    repeated copy of the world, is fully transparent whatever the points
    are. *)
Theorem main_is_transparent_outside_main_world (u : uniforms) (screenPos : vec2) :
  let mercX := lngToMercatorX (v2x (u_center u))
               + v2x screenPos * v2x (u_viewportSize u) * 0.5
                 / (WORLD_SIZE * pow 2.0 (u_zoom u)) in
  mercX < 0 \/ 1 <= mercX ->
  main u screenPos = Vec4 0.0 0.0 0.0 0.0.
Proof.
  intros mercX Hout.
  pose proof (screenToGeo_worldWrap u screenPos) as Hwrap. fold mercX in Hwrap.
  pose proof (floor_bounds mercX) as Hfloor.
  unfold main. destruct (screenToGeo u screenPos) as [currentPos worldWrap].
  cbn [snd] in Hwrap. subst worldWrap.
  destruct (Req_dec_T (floor mercX) 0.0) as [Hz | _]; [ lra | reflexivity ].
Qed.

Lemma main_is_transparent_outside_main_world_witness :
  main antimeridianUniforms (Vec2 1 0) = Vec4 0.0 0.0 0.0 0.0.
Proof.
  apply (main_is_transparent_outside_main_world antimeridianUniforms (Vec2 1 0)).
  right. cbn [u_center u_viewportSize u_zoom antimeridianUniforms v2x v2y].
  rewrite pow_pos_base by lra. rewrite Rpower_O by lra.
  unfold lngToMercatorX, WORLD_SIZE. lra.
Defined.

(** X5: where every uploaded point is dry or at least the influence radius
    away, the blended value is 0 and the fragment is transparent, whatever
    [u_numPoints] is. *)
Theorem no_point_in_reach_gives_transparent (u : uniforms) (currentPos : vec2) :
  (forall point, In point (u_points u) ->
                 v3z point = 0 \/
                 u_influenceRadius u <= haversineDistance currentPos (xy point)) ->
  interpolatedValue u currentPos = 0 /\
  (forall screenPos, fst (screenToGeo u screenPos) = currentPos ->
                     main u screenPos = Vec4 0.0 0.0 0.0 0.0).
Proof.
  intros Hfar.
  assert (Hloop : loop u currentPos 250 0 (0.0, 0.0) = (0.0, 0.0)).
  { apply (loop_invariant u currentPos (fun totals => totals = (0.0, 0.0)));
      [ | reflexivity ].
    intros totals j ->.
    destruct (nth_point_cases (u_points u) j) as [Hin | Hzero].
    - destruct (Hfar _ Hin) as [Hdry | Hout].
      + apply loopBody_zero. exact Hdry.
      + apply loopBody_outside. exact Hout.
    - rewrite Hzero. apply loopBody_zero. reflexivity. }
  assert (Hvalue : interpolatedValue u currentPos = 0).
  { unfold interpolatedValue. rewrite Hloop.
    destruct (Rgt_dec 0.0 0.0); lra. }
  split; [ exact Hvalue | ].
  intros screenPos Hpos. unfold main.
  destruct (screenToGeo u screenPos) as [pos wrap]. cbn [fst] in Hpos. subst pos.
  destruct (Req_dec_T wrap 0.0); [ | reflexivity ].
  destruct (Rle_dec (interpolatedValue u currentPos) 0.0); [ reflexivity | lra ].
Qed.

Lemma no_point_in_reach_gives_transparent_witness :
  interpolatedValue farUniforms (Vec2 179.9 0.0) = 0.
Proof.
  apply (no_point_in_reach_gives_transparent farUniforms (Vec2 179.9 0.0)).
  intros point [<- | [<- | []]].
  - right. unfold xy. cbn [v3x v3y u_influenceRadius farUniforms].
    rewrite haversineDistance_antimeridian. unfold PI. lra.
  - left. reflexivity.
Defined.

(** X6: the loop reads the uniform array only below [u_numPoints] and below
    250: two uniform states that agree there, and on the count, the radius
    and the steepness, blend to the same value, whatever older uploads left
    in the rest of the array. *)
Theorem blend_ignores_entries_beyond_numPoints (u u' : uniforms) (currentPos : vec2) :
  u_numPoints u' = u_numPoints u ->
  u_influenceRadius u' = u_influenceRadius u ->
  u_falloffSteepness u' = u_falloffSteepness u ->
  (forall j, (j < 250)%nat -> (Z.of_nat j < u_numPoints u)%Z ->
             nth j (u_points u') vec3_zero = nth j (u_points u) vec3_zero) ->
  interpolatedValue u' currentPos = interpolatedValue u currentPos.
Proof.
  intros Hnum Hr Hs Hsame. unfold interpolatedValue.
  rewrite (loop_reads_prefix u u' currentPos Hnum Hr Hs 250 0 (0.0, 0.0));
    [ reflexivity | ].
  intros j Hj Hbelow. apply Hsame; [ lia | exact Hbelow ].
Qed.

Lemma blend_ignores_entries_beyond_numPoints_witness :
  u_points staleUniforms <> u_points singlePointUniforms /\
  interpolatedValue staleUniforms (Vec2 10.0 60.0)
  = interpolatedValue singlePointUniforms (Vec2 10.0 60.0).
Proof.
  split; [ discriminate | ].
  apply (blend_ignores_entries_beyond_numPoints singlePointUniforms staleUniforms);
    try reflexivity.
  intros j _ Hbelow. cbn [u_numPoints singlePointUniforms] in Hbelow.
  destruct j as [ | j ]; [ reflexivity | lia ].
Defined.

(** X7: the blended value is a boosted weighted average: when every
    uploaded point has a value between 0 and [vmax], the blended value lies
    between 0 and [1.15 * vmax] at every position, for every radius,
    steepness and point count. *)
Theorem blend_is_bounded_by_boosted_maximum
        (u : uniforms) (currentPos : vec2) (vmax : R) :
  0 <= vmax ->
  (forall point, In point (u_points u) -> 0 <= v3z point <= vmax) ->
  0 <= interpolatedValue u currentPos <= 1.15 * vmax.
Proof.
  intros Hvmax Hvalues.
  pose (P := fun totals : R * R =>
               0 <= snd totals /\ 0 <= fst totals <= vmax * snd totals).
  assert (Hloop : P (loop u currentPos 250 0 (0.0, 0.0))).
  { apply (loop_invariant u currentPos P); [ | unfold P; cbn; lra ].
    intros [ti tw] j [Htw Hti]. cbn [fst snd] in Htw, Hti.
    destruct (nth_point_cases (u_points u) j) as [Hin | Hzero].
    - pose proof (Hvalues _ Hin) as Hv.
      set (point := nth j (u_points u) vec3_zero) in *.
      unfold loopBody.
      destruct (Req_dec_T (v3z point) 0.0); [ unfold P; cbn; lra | ].
      destruct (Rlt_dec (haversineDistance currentPos (xy point)) (u_influenceRadius u));
        [ | unfold P; cbn; lra ].
      pose proof (falloff_range u (haversineDistance currentPos (xy point))) as Hf.
      set (f := falloff u (haversineDistance currentPos (xy point))) in *.
      assert (Hff : 0 <= f * f) by nra.
      assert (Hvf : 0 <= v3z point * f <= vmax) by nra.
      unfold P. cbn [fst snd]. split; [ lra | ].
      replace (v3z point * f * (f * f)) with ((v3z point * f) * (f * f)) by ring.
      nra.
    - rewrite Hzero, loopBody_zero by reflexivity. unfold P. cbn. lra. }
  unfold interpolatedValue.
  destruct (loop u currentPos 250 0 (0.0, 0.0)) as [ti tw].
  destruct Hloop as [Htw Hti]. cbn [fst snd] in Htw, Hti.
  destruct (Rgt_dec tw 0.0) as [Hpos | _]; [ | lra ].
  assert (Hq : 0 <= ti / tw <= vmax).
  { split.
    - apply Rmult_le_pos; [ lra | left; apply Rinv_0_lt_compat; lra ].
    - apply Rmult_le_reg_r with tw; [ lra | ].
      unfold Rdiv. rewrite Rmult_assoc, Rinv_l by lra. lra. }
  lra.
Qed.

Lemma blend_is_bounded_by_boosted_maximum_witness :
  0 <= interpolatedValue singlePointUniforms (Vec2 10.0 60.0) <= 1.15 * 1.
Proof.
  apply (blend_is_bounded_by_boosted_maximum singlePointUniforms (Vec2 10.0 60.0) 1).
  - lra.
  - intros point [<- | []]. cbn [v3z]. lra.
Defined.

(** X8: inside the influence radius the falloff does not increase with the
    distance (for a positive steepness): of two points within the radius the
    nearer one has a falloff at least as large as the farther one. *)
Theorem falloff_decreases_with_distance (u : uniforms) (d1 d2 : R) :
  0 < u_falloffSteepness u ->
  0 <= d1 -> d1 <= d2 -> d2 < u_influenceRadius u ->
  falloff u d2 <= falloff u d1.
Proof.
  intros Hs Hd1 Hle Hd2.
  destruct (Req_dec_T d1 d2) as [-> | Hne]; [ lra | ].
  assert (Hlt : d1 < d2) by lra.
  assert (Hr : 0 < u_influenceRadius u) by lra.
  destruct (falloff_inside u d2 (conj (Rle_lt_trans _ _ _ Hd1 Hlt) Hd2) Hs)
    as (E2 & Hnd2 & Hf2).
  destruct (Req_dec_T d1 0) as [-> | Hpos].
  - rewrite (falloff_at_centre u Hs). lra.
  - assert (Hd1' : 0 < d1 < u_influenceRadius u) by lra.
    destruct (falloff_inside u d1 Hd1' Hs) as (E1 & Hnd1 & _).
    rewrite E1, E2.
    assert (Hq : 0 < d1 / u_influenceRadius u < d2 / u_influenceRadius u).
    { split.
      - apply Rdiv_lt_0_compat; lra.
      - apply Rmult_lt_compat_r; [ apply Rinv_0_lt_compat; lra | lra ]. }
    pose proof (Rlt_Rpower_l _ _ (u_falloffSteepness u) Hs Hq) as Hnd.
    pose proof real_pi_above_literal as Hpi.
    assert (Hcos : cos (Rpower (d2 / u_influenceRadius u) (u_falloffSteepness u) * 3.14159)
                   < cos (Rpower (d1 / u_influenceRadius u) (u_falloffSteepness u) * 3.14159))
      by (apply cos_decreasing_1; nra).
    lra.
Qed.

Lemma falloff_decreases_with_distance_witness :
  falloff linearUniforms 10 <= falloff linearUniforms 5.
Proof.
  apply (falloff_decreases_with_distance linearUniforms 5 10); cbn; lra.
Defined.

(** X9: a single uploaded point of non-zero value within the radius gives
    the blended value [1.15 * value * falloff]: the weighted average of one
    influence is the influence itself, and when the falloff is 0 the value
    is 0. *)
Theorem single_point_blend (u : uniforms) (currentPos : vec2) (point : vec3) :
  0 < u_falloffSteepness u ->
  u_points u = [point] -> u_numPoints u = 1%Z ->
  v3z point <> 0 ->
  haversineDistance currentPos (xy point) < u_influenceRadius u ->
  interpolatedValue u currentPos
  = v3z point * falloff u (haversineDistance currentPos (xy point)) * 1.15.
Proof.
  intros Hs Hpts Hnum Hv Hd.
  set (d := haversineDistance currentPos (xy point)) in *.
  rewrite interpolatedValue_fold; rewrite Hpts; [ | rewrite Hnum; reflexivity | cbn; lia ].
  cbn [fold_left]. unfold loopBody. fold d.
  destruct (Req_dec_T (v3z point) 0.0) as [Hz | _]; [ exfalso; apply Hv; lra | ].
  destruct (Rlt_dec d (u_influenceRadius u)) as [_ | Hn]; [ | contradiction ].
  set (f := falloff u d) in *.
  destruct (Rgt_dec (0.0 + f * f) 0.0) as [Hpos | Hzero].
  - assert (Hf : f <> 0) by (intros E; rewrite E in Hpos; lra).
    decimals. field. exact Hf.
  - assert (Hf : f = 0) by nra.
    rewrite Hf. lra.
Qed.

Lemma single_point_blend_witness :
  interpolatedValue singlePointUniforms (Vec2 10.0 60.0)
  = 1 * falloff singlePointUniforms
                (haversineDistance (Vec2 10.0 60.0) (Vec2 10.0 60.0)) * 1.15.
Proof.
  apply (single_point_blend singlePointUniforms (Vec2 10.0 60.0) (Vec3 10.0 60.0 1)).
  - cbn. lra.
  - reflexivity.
  - reflexivity.
  - cbn. lra.
  - unfold xy. cbn [v3x v3y]. rewrite haversineDistance_same. cbn. lra.
Defined.

(** X10: the blended value does not depend on the order of the points: two
    uploads of at most 250 points that are permutations of one another,
    with the same radius and steepness, blend to the same value (in real
    arithmetic, where the sums commute). *)
Theorem blend_is_independent_of_point_order (u u' : uniforms) (currentPos : vec2) :
  Permutation (u_points u) (u_points u') ->
  (length (u_points u) <= 250)%nat ->
  u_numPoints u = Z.of_nat (length (u_points u)) ->
  u_numPoints u' = Z.of_nat (length (u_points u')) ->
  u_influenceRadius u' = u_influenceRadius u ->
  u_falloffSteepness u' = u_falloffSteepness u ->
  interpolatedValue u' currentPos = interpolatedValue u currentPos.
Proof.
  intros Hperm Hlen Hnum Hnum' Hr Hs.
  assert (Hfold : forall l l', Permutation l l' ->
            forall totals, fold_left (loopBody u currentPos) l totals
                           = fold_left (loopBody u currentPos) l' totals).
  { intros l l' H. induction H as [ | x l l' _ IH | x y l | l l' l'' _ IH1 _ IH2 ];
      intros totals; cbn [fold_left].
    - reflexivity.
    - apply IH.
    - rewrite loopBody_comm. reflexivity.
    - rewrite IH1. apply IH2. }
  rewrite (interpolatedValue_fold u currentPos Hnum Hlen).
  rewrite (interpolatedValue_fold u' currentPos Hnum')
    by (rewrite <- (Permutation_length Hperm); exact Hlen).
  rewrite (fold_loopBody_ext u' u currentPos _ Hr Hs).
  rewrite (Hfold _ _ Hperm). reflexivity.
Qed.

Lemma blend_is_independent_of_point_order_witness :
  u_points farUniformsSwapped <> u_points farUniforms /\
  interpolatedValue farUniformsSwapped (Vec2 179.9 0.0)
  = interpolatedValue farUniforms (Vec2 179.9 0.0).
Proof.
  split.
  - cbn [u_points farUniforms farUniformsSwapped]. intros E.
    injection E as E _. lra.
  - apply (blend_is_independent_of_point_order farUniforms farUniformsSwapped);
      try reflexivity.
    + apply perm_swap.
    + cbn. lia.
Defined.





(** X13: on the unit square of Mercator coordinates the inverse projection
    followed by the projection is the identity: for [x] and [y] between 0
    and 1, [lngToMercatorX (mercatorXToLng x) = x] and
    [latToMercatorY (mercatorYToLat y) = y]. *)
Theorem mercator_inverse_then_projection (x y : R) :
  0 <= x <= 1 -> 0 <= y <= 1 ->
  lngToMercatorX (mercatorXToLng x) = x /\
  latToMercatorY (mercatorYToLat y) = y.
Proof.
  intros _ _.
  split; [ apply mercatorX_roundtrip_back | apply mercatorY_roundtrip_back ].
Qed.

Lemma mercator_inverse_then_projection_witness :
  lngToMercatorX (mercatorXToLng 0.25) = 0.25 /\
  latToMercatorY (mercatorYToLat 0.75) = 0.75.
Proof.
  apply (mercator_inverse_then_projection 0.25 0.75); lra.
Defined.



End ShaderProperties.

(* ================================================================= *)
(** ** Further properties of the layer *)

Section LayerProperties.
Import GLSL Config Layer Spec Inputs.

(** X15: how [onAdd] ends.  It always records the map first.  It returns
    exactly when both shaders compile, the program links and there are at
    most 250 points; otherwise it throws, the compile error before the link
    error and the link error before the point-count error, and in none of
    these cases have the cached arrays been written. *)
Theorem onAdd_outcomes (host : Map) (gl : WebGL) (this : PrecipitationLayer) :
  map (snd (onAdd host gl this)) = Some host /\
  (fst (onAdd host gl this) = Normal tt <->
   vertexCompiles gl = true /\ fragmentCompiles gl = true /\
   programLinks gl = true /\ (length (points this) <= 250)%nat) /\
  (vertexCompiles gl = false \/ fragmentCompiles gl = false ->
   fst (onAdd host gl this)
     = Throw "Failed to compile shaders for precipitation layer" /\
   program (snd (onAdd host gl this)) = program this) /\
  (vertexCompiles gl = true -> fragmentCompiles gl = true ->
   programLinks gl = false ->
   fst (onAdd host gl this)
     = Throw "Failed to link shader program for precipitation layer" /\
   program (snd (onAdd host gl this)) = None) /\
  (vertexCompiles gl = true -> fragmentCompiles gl = true ->
   programLinks gl = true -> (250 < length (points this))%nat ->
   fst (onAdd host gl this) = Throw "Maximum 250 data points supported" /\
   program (snd (onAdd host gl this)) = Some GLProgram) /\
  (fst (onAdd host gl this) <> Normal tt ->
   pointsArray (snd (onAdd host gl this)) = pointsArray this /\
   gradientColors (snd (onAdd host gl this)) = gradientColors this /\
   gradientStops (snd (onAdd host gl this)) = gradientStops this).
Proof.
  destruct gl as [v f l].
  unfold onAdd, createShader, createProgram, bind, assign, get, throw.
  cbn [vertexCompiles fragmentCompiles programLinks].
  destruct v, f, l; cbn [program set_program set_map];
    try (repeat split; intros; repeat split; try discriminate; try reflexivity;
         try (exfalso; intuition congruence); fail).
  destruct (Nat.ltb_spec 250 (length (points this))) as [Hbig | Hfits].
  - rewrite prepareUniformData_oversized by exact Hbig. cbn [fst snd].
    repeat split; intros; repeat split; try discriminate; try reflexivity;
      try (exfalso; intuition (try congruence; try lia)).
  - rewrite prepareUniformData_fits by exact Hfits. cbn [fst snd].
    repeat split; intros; repeat split; try discriminate; try reflexivity;
      try assumption; try (exfalso; intuition (try congruence; try lia)).
Qed.

(** X16: the first frame after a successful [onAdd] is drawn with the
    points given to the constructor, in their order, as [u_points], their
    count as [u_numPoints], the camera of the host map, the size of the
    canvas, the radius and steepness of the configuration and the five
    colours and stops of [COLOR_GRADIENT]. *)
Theorem first_frame_after_onAdd
        (host : Map) (gl : WebGL) (canvas : Canvas) (this : PrecipitationLayer) :
  vertexCompiles gl = true -> fragmentCompiles gl = true -> programLinks gl = true ->
  (length (points this) <= 250)%nat ->
  exists u : Shaders.uniforms,
    fst ((onAdd host gl ;;; render canvas) this) = Normal u /\
    Shaders.u_points u = List.map uniformPoint (points this) /\
    Shaders.u_numPoints u = Z.of_nat (length (points this)) /\
    Shaders.u_center u = Vec2 (fst (getCenter host)) (snd (getCenter host)) /\
    Shaders.u_zoom u = getZoom host /\
    Shaders.u_viewportSize u = Vec2 (clientWidth canvas) (clientHeight canvas) /\
    Shaders.u_influenceRadius u = influenceRadius (config this) /\
    Shaders.u_falloffSteepness u = falloffSteepness (config this) /\
    Shaders.u_gradientColors u
      = List.map (fun grad => rgb (color grad)) COLOR_GRADIENT /\
    Shaders.u_gradientStops u = List.map stop COLOR_GRADIENT.
Proof.
  intros Hv Hf Hl Hlen. destruct gl as [v f l].
  cbn [vertexCompiles fragmentCompiles programLinks] in Hv, Hf, Hl. subst v f l.
  unfold bind at 1.
  unfold onAdd, createShader, createProgram, bind, assign, get.
  cbn [vertexCompiles fragmentCompiles programLinks program set_program set_map].
  rewrite prepareUniformData_fits by exact Hlen.
  destruct this as [i p c pr pb lo mp pa gc gs rp].
  eexists. split; [ reflexivity | ].
  cbn [Shaders.u_points Shaders.u_numPoints Shaders.u_center Shaders.u_zoom
       Shaders.u_viewportSize Shaders.u_influenceRadius Shaders.u_falloffSteepness
       Shaders.u_gradientColors Shaders.u_gradientStops points config
       set_positionBuffer set_locations set_program set_map].
  cbn [points] in Hlen.
  rewrite (uniform3fv_pointsFloats p Hlen). repeat split.
Qed.

Lemma first_frame_after_onAdd_witness :
  exists u : Shaders.uniforms,
    fst ((onAdd hostMap workingGL ;;; render hostCanvas) newLayer) = Normal u /\
    Shaders.u_points u = [Vec3 5.8 60.3 0.92] /\
    Shaders.u_numPoints u = 1%Z.
Proof.
  destruct (first_frame_after_onAdd hostMap workingGL hostCanvas newLayer
              eq_refl eq_refl eq_refl)
    as (u & Hu & Hpts & Hnum & _).
  - cbn. lia.
  - exists u. split; [ exact Hu | split; [ exact Hpts | exact Hnum ] ].
Defined.

(** X17: a valid [updatePoints] decides the points and the cached arrays
    whatever came before it: after any earlier update, accepted or rejected,
    the instance holds the new list and its flattened array; and after a
    rejected update the instance is exactly what the valid update alone
    would have made it. *)
Theorem valid_updatePoints_overrides_earlier_update
        (earlier newPoints : list SamplePoint) (this : PrecipitationLayer) :
  (length newPoints <= 250)%nat ->
  let after := snd (updatePoints newPoints (snd (updatePoints earlier this))) in
  fst (updatePoints newPoints (snd (updatePoints earlier this))) = Normal tt /\
  points after = newPoints /\
  pointsArray after = Some (pointsFloats newPoints) /\
  gradientColors after = Some (gradientColorFloats COLOR_GRADIENT) /\
  gradientStops after = Some (gradientStopFloats COLOR_GRADIENT) /\
  config after = config this /\
  map after = map this /\
  ((250 < length earlier)%nat -> after = snd (updatePoints newPoints this)).
Proof.
  intros Hlen after. unfold after.
  rewrite (updatePoints_fits newPoints _ Hlen). cbn [fst snd].
  destruct (Nat.ltb_spec 250 (length earlier)) as [Hbig | Hfits].
  - rewrite (updatePoints_oversized earlier this Hbig). cbn [snd].
    rewrite (updatePoints_fits newPoints this Hlen). cbn [snd].
    destruct this as [i p c pr pb lo [m | ] pa gc gs rp];
      repeat split; intros; reflexivity.
  - rewrite (updatePoints_fits earlier this Hfits). cbn [snd].
    destruct this as [i p c pr pb lo [m | ] pa gc gs rp];
      repeat split; intros; try reflexivity; lia.
Qed.

Lemma valid_updatePoints_overrides_earlier_update_witness :
  points (snd (updatePoints [bergen; dryPoint]
                            (snd (updatePoints tooManyPoints activeLayer))))
    = [bergen; dryPoint] /\
  snd (updatePoints [bergen; dryPoint] (snd (updatePoints tooManyPoints activeLayer)))
    = snd (updatePoints [bergen; dryPoint] activeLayer).
Proof.
  assert (Hlen : (length [bergen; dryPoint] <= 250)%nat) by (cbn; lia).
  assert (Hbig : (250 < length tooManyPoints)%nat)
    by (unfold tooManyPoints; rewrite repeat_length; lia).
  destruct (valid_updatePoints_overrides_earlier_update
              tooManyPoints [bergen; dryPoint] activeLayer Hlen)
    as (_ & Hpts & _ & _ & _ & _ & _ & Hsame).
  split; [ exact Hpts | exact (Hsame Hbig) ].
Defined.

(** X18: the frame after a rejected [updatePoints].  On a layer that has
    been drawn before, [render] does not throw after the rejected update:
    it uploads the array cached for the previous points, and passes the
    length of the rejected list, which is more than 250, as
    [u_numPoints]. *)
Theorem frame_after_rejected_updatePoints
        (rejected : list SamplePoint) (canvas : Canvas) (this : PrecipitationLayer)
        (before : Shaders.uniforms) :
  (250 < length rejected)%nat ->
  fst (render canvas this) = Normal before ->
  exists u : Shaders.uniforms,
    fst (render canvas (snd (updatePoints rejected this))) = Normal u /\
    Shaders.u_points u = Shaders.u_points before /\
    Shaders.u_numPoints u = Z.of_nat (length rejected) /\
    (250 < Shaders.u_numPoints u)%Z /\
    Shaders.u_gradientColors u = Shaders.u_gradientColors before /\
    Shaders.u_influenceRadius u = Shaders.u_influenceRadius before /\
    Shaders.u_falloffSteepness u = Shaders.u_falloffSteepness before.
Proof.
  intros Hbig Hbefore.
  rewrite (updatePoints_oversized rejected this Hbig). cbn [snd].
  destruct this as [i p c pr pb lo mp pa gc gs rp].
  unfold render, bind, get in *. cbn [map pointsArray gradientColors gradientStops
    set_points points config] in *.
  destruct mp as [m | ], pa as [arr | ], gc as [cols | ], gs as [stops | ];
    try discriminate Hbefore.
  cbn [fst ret] in *. injection Hbefore as <-.
  eexists. split; [ reflexivity | ].
  cbn [Shaders.u_points Shaders.u_numPoints Shaders.u_gradientColors
       Shaders.u_influenceRadius Shaders.u_falloffSteepness].
  repeat split. lia.
Qed.

Lemma frame_after_rejected_updatePoints_witness :
  exists u : Shaders.uniforms,
    fst (render hostCanvas (snd (updatePoints tooManyPoints activeLayer))) = Normal u /\
    Shaders.u_points u = [Vec3 5.8 60.3 0.92] /\
    Shaders.u_numPoints u = 251%Z.
Proof.
  assert (Hbig : (250 < length tooManyPoints)%nat)
    by (unfold tooManyPoints; rewrite repeat_length; lia).
  destruct (frame_after_rejected_updatePoints tooManyPoints hostCanvas activeLayer
              _ Hbig eq_refl)
    as (u & Hu & Hpts & Hnum & _).
  exists u. split; [ exact Hu | split ].
  - rewrite Hpts. reflexivity.
  - rewrite Hnum. unfold tooManyPoints. rewrite repeat_length. reflexivity.
Defined.

(** X19: what the radius slider does.  On a layer that draws, a call
    [updateConfig({ influenceRadius: radius })] never throws, and the next
    frame is drawn with the new radius and with every other uniform as
    before. *)
Theorem frame_after_radius_update
        (radius : R) (canvas : Canvas) (this : PrecipitationLayer)
        (before : Shaders.uniforms) :
  fst (render canvas this) = Normal before ->
  fst ((updateConfig (radiusOnly radius) ;;; render canvas) this)
  = Normal {| Shaders.u_center := Shaders.u_center before;
              Shaders.u_zoom := Shaders.u_zoom before;
              Shaders.u_viewportSize := Shaders.u_viewportSize before;
              Shaders.u_influenceRadius := radius;
              Shaders.u_falloffSteepness := Shaders.u_falloffSteepness before;
              Shaders.u_points := Shaders.u_points before;
              Shaders.u_numPoints := Shaders.u_numPoints before;
              Shaders.u_gradientColors := Shaders.u_gradientColors before;
              Shaders.u_gradientStops := Shaders.u_gradientStops before |}.
Proof.
  intros Hbefore.
  destruct this as [i p c pr pb lo mp pa gc gs rp].
  unfold updateConfig, render, bind, get, assign, triggerRepaint in *.
  cbn [map pointsArray gradientColors gradientStops set_config points config] in *.
  destruct mp as [m | ], pa as [arr | ], gc as [cols | ], gs as [stops | ];
    try discriminate Hbefore.
  cbn [fst ret] in *. injection Hbefore as <-. reflexivity.
Qed.

Lemma frame_after_radius_update_witness :
  exists u : Shaders.uniforms,
    fst ((updateConfig (radiusOnly 40) ;;; render hostCanvas) activeLayer) = Normal u /\
    Shaders.u_influenceRadius u = 40 /\
    Shaders.u_points u = [Vec3 5.8 60.3 0.92].
Proof.
  eexists. split.
  - exact (frame_after_radius_update 40 hostCanvas activeLayer _ eq_refl).
  - split; reflexivity.
Defined.

(** X20: [updateConfig] merges.  It never throws and never touches the
    points or the cached arrays; it asks the map for a repaint exactly when
    the layer is on one; with an object that gives all five fields (as the
    reset button passes [DEFAULT_CONFIG]) the configuration becomes that
    object whatever it was; with an empty object it stays as it was; and of
    two calls the later one wins on the fields it gives. *)
Theorem updateConfig_merges (given : RenderConfig) (first second : PartialConfig)
        (this : PrecipitationLayer) :
  (fst (updateConfig first this) = Normal tt /\
   points (snd (updateConfig first this)) = points this /\
   pointsArray (snd (updateConfig first this)) = pointsArray this /\
   repaints (snd (updateConfig first this))
   = match map this with
     | Some _ => S (repaints this)
     | None => repaints this
     end) /\
  config (snd (updateConfig (allFields given) this)) = given /\
  config (snd (updateConfig emptyConfig this)) = config this /\
  (forall radius : R,
      influenceRadius' second = Some radius ->
      influenceRadius
        (config (snd ((updateConfig first ;;; updateConfig second) this))) = radius) /\
  (influenceRadius' second = None ->
   influenceRadius (config (snd ((updateConfig first ;;; updateConfig second) this)))
   = influenceRadius (config (snd (updateConfig first this)))).
Proof.
  destruct this as [i p c pr pb lo mp pa gc gs rp].
  destruct c as [r s res mn mx], given as [r' s' res' mn' mx'].
  unfold updateConfig, bind, get, assign, triggerRepaint.
  repeat split; intros; destruct mp; cbn in *; try reflexivity;
    match goal with
    | H : influenceRadius' second = _ |- _ => rewrite H; reflexivity
    end.
Qed.

(** X21: the layout of the cached point array.  After [prepareUniformData]
    on at most 250 points, [pointsArray] has three numbers per point, and
    the point at index [i] occupies the indices [3i], [3i + 1] and [3i + 2]
    with its longitude, latitude and value. *)
Theorem pointsArray_is_interleaved
        (this : PrecipitationLayer) (i : nat) (point : SamplePoint) :
  (length (points this) <= 250)%nat ->
  nth_error (points this) i = Some point ->
  exists array : list R,
    pointsArray (snd (prepareUniformData this)) = Some array /\
    length array = (3 * length (points this))%nat /\
    nth_error array (3 * i) = Some (lng point) /\
    nth_error array (3 * i + 1) = Some (lat point) /\
    nth_error array (3 * i + 2) = Some (value point).
Proof.
  intros Hlen Hpoint.
  rewrite (prepareUniformData_fits this Hlen). cbn [snd].
  exists (pointsFloats (points this)). split; [ reflexivity | ].
  clear Hlen. revert i Hpoint.
  induction (points this) as [ | p pts IH ]; intros i Hpoint.
  - destruct i; discriminate Hpoint.
  - destruct i as [ | i ].
    + cbn in Hpoint. injection Hpoint as ->.
      cbn [pointsFloats flat_map app length]. fold (pointsFloats pts).
      repeat split; try reflexivity.
      clear IH. induction pts as [ | q pts IHq ]; [ reflexivity | ].
      cbn [pointsFloats flat_map app length] in *. fold (pointsFloats pts) in *. lia.
    + cbn [nth_error] in Hpoint. destruct (IH i Hpoint) as (Hl & H0 & H1 & H2).
      cbn [pointsFloats flat_map app length]. fold (pointsFloats pts).
      replace (3 * S i)%nat with (S (S (S (3 * i)))) by lia.
      cbn [Nat.add nth_error]. repeat split; try assumption. lia.
Qed.

Lemma pointsArray_is_interleaved_witness :
  exists array : list R,
    pointsArray (snd (prepareUniformData newLayer)) = Some array /\
    length array = 3%nat /\
    nth_error array 2 = Some 0.92.
Proof.
  destruct (pointsArray_is_interleaved newLayer 0 bergen) as (array & Ha & Hl & _ & _ & Hv).
  - cbn. lia.
  - reflexivity.
  - exists array. split; [ exact Ha | split; [ exact Hl | exact Hv ] ].
Defined.

End LayerProperties.

(* ================================================================= *)
(** ** The demonstration data *)

Section DemoLemmas.
Import Config Demo.

Lemma gridSize_bounds : 14 < gridSize < 15.
Proof.
  unfold gridSize. split.
  - rewrite <- (sqrt_square 14) by lra. apply sqrt_lt_1_alt. lra.
  - rewrite <- (sqrt_square 15) by lra. apply sqrt_lt_1_alt. lra.
Qed.

(** The loop test [i < gridSize] holds for the counters 0 to 14. *)
Lemma gridSize_test (k : nat) : INR k < gridSize <-> (k < 15)%nat.
Proof.
  pose proof gridSize_bounds as [Hlow Hhigh].
  assert (H14 : INR 14 = 14) by (rewrite INR_IZR_INZ; reflexivity).
  assert (H15 : INR 15 = 15) by (rewrite INR_IZR_INZ; reflexivity).
  split.
  - intros Hk. destruct (Nat.lt_ge_cases k 15) as [Hlt | Hge]; [ exact Hlt | ].
    apply le_INR in Hge. lra.
  - intros Hk. assert (Hle : (k <= 14)%nat) by lia.
    apply le_INR in Hle. lra.
Qed.

Lemma forLoop_step {State : Type} (fuel i : nat)
      (body : nat -> State -> Gen State) (state : State) (calls : nat) :
  (i < 15)%nat ->
  forLoop (S fuel) i body state calls
  = forLoop fuel (S i) body (fst (body i state calls)) (snd (body i state calls)).
Proof.
  intros Hi. cbn [forLoop].
  destruct (Rlt_dec (INR i) gridSize) as [_ | Hn].
  - unfold gbind. destruct (body i state calls); reflexivity.
  - exfalso. apply Hn, gridSize_test, Hi.
Qed.

Lemma forLoop_stop {State : Type} (fuel i : nat)
      (body : nat -> State -> Gen State) (state : State) (calls : nat) :
  (15 <= i)%nat -> forLoop fuel i body state calls = (state, calls).
Proof.
  intros Hi. destruct fuel as [ | fuel ]; [ reflexivity | ]. cbn [forLoop].
  destruct (Rlt_dec (INR i) gridSize) as [Hy | _]; [ | reflexivity ].
  apply gridSize_test in Hy. lia.
Qed.

(** With fuel for the passes that remain, the loop runs the counter up to
    15, and an invariant indexed by the counter holds with index 15 of what
    it returns. *)
Lemma forLoop_invariant {State : Type} (Inv : nat -> State -> Prop)
      (body : nat -> State -> Gen State) :
  (forall k state calls, (k < 15)%nat -> Inv k state ->
                         Inv (S k) (fst (body k state calls))) ->
  forall fuel i state calls,
    (i <= 15)%nat -> (15 < i + fuel)%nat -> Inv i state ->
    Inv 15%nat (fst (forLoop fuel i body state calls)).
Proof.
  intros Hbody fuel.
  induction fuel as [ | fuel IH ]; intros i state calls Hi Hfuel Hinv; [ lia | ].
  destruct (Nat.eq_dec i 15) as [-> | Hne].
  - rewrite forLoop_stop by lia. exact Hinv.
  - rewrite forLoop_step by lia.
    apply IH; [ lia | lia | apply Hbody; [ lia | exact Hinv ] ].
Qed.

(** Whatever the fuel, a property the body keeps is kept by the loop; the
    body is only run on counters below 15. *)
Lemma forLoop_preserves {State : Type} (Inv : State -> Prop)
      (body : nat -> State -> Gen State) :
  (forall k state calls, (k < 15)%nat -> Inv state -> Inv (fst (body k state calls))) ->
  forall fuel i state calls,
    Inv state -> Inv (fst (forLoop fuel i body state calls)).
Proof.
  intros Hbody fuel.
  induction fuel as [ | fuel IH ]; intros i state calls Hinv; [ exact Hinv | ].
  destruct (Nat.lt_ge_cases i 15) as [Hlt | Hge].
  - rewrite forLoop_step by exact Hlt. apply IH, Hbody; assumption.
  - rewrite forLoop_stop by exact Hge. exact Hinv.
Qed.

(** Fuel beyond the passes that remain changes nothing. *)
Lemma forLoop_fuel {State : Type} (body body' : nat -> State -> Gen State) :
  (forall k state calls, (k < 15)%nat -> body k state calls = body' k state calls) ->
  forall fuel fuel' i state calls,
    (i <= 15)%nat -> (15 < i + fuel)%nat -> (15 < i + fuel')%nat ->
    forLoop fuel i body state calls = forLoop fuel' i body' state calls.
Proof.
  intros Hbody fuel.
  induction fuel as [ | fuel IH ]; intros fuel' i state calls Hi Hfuel Hfuel'; [ lia | ].
  destruct (Nat.eq_dec i 15) as [-> | Hne].
  - rewrite !forLoop_stop by lia. reflexivity.
  - destruct fuel' as [ | fuel' ]; [ lia | ].
    rewrite !forLoop_step by lia. rewrite (Hbody i state calls) by lia.
    apply IH; lia.
Qed.

(** Rounding to a number of decimals stays between two multiples of the
    unit that enclose the argument. *)
Lemma toFixed_between (digits : nat) (a b : Z) (x : R) :
  0 <= x -> IZR a <= x * 10 ^ digits <= IZR b ->
  IZR a / 10 ^ digits <= toFixed digits x <= IZR b / 10 ^ digits.
Proof.
  intros Hx [Ha Hb]. unfold toFixed.
  destruct (Rlt_dec x 0) as [Hneg | _]; [ lra | ].
  set (y := x * 10 ^ digits + 0.5).
  destruct (base_Int_part y) as [Hlow Hhigh].
  assert (Hak : (a <= Int_part y)%Z).
  { assert (H : (a < Int_part y + 1)%Z)
      by (apply lt_IZR; rewrite plus_IZR; unfold y in *; lra).
    lia. }
  assert (Hkb : (Int_part y <= b)%Z).
  { assert (H : (Int_part y < b + 1)%Z)
      by (apply lt_IZR; rewrite plus_IZR; unfold y in *; lra).
    lia. }
  apply IZR_le in Hak, Hkb.
  assert (Hpow : 0 < / 10 ^ digits) by (apply Rinv_0_lt_compat, pow_lt; lra).
  unfold Rdiv. split; apply Rmult_le_compat_r; lra.
Qed.

Lemma clusterStep_grows (random : nat -> R) (lng lat maxValue : R)
      (cluster : RainCluster) (calls : nat) :
  maxValue <= fst (clusterStep random lng lat maxValue cluster calls).
Proof.
  unfold clusterStep.
  destruct (Rlt_dec _ (c_radius cluster)); [ | cbn; lra ].
  unfold gbind, Math_random.
  destruct (Rgt_dec _ (c_density cluster)); cbn [fst gret]; apply Rmax_l.
Qed.

Lemma forClusters_grows (random : nat -> R) (lng lat : R) (clusters : list RainCluster) :
  forall maxValue calls,
    maxValue <= fst (forClusters random lng lat clusters maxValue calls).
Proof.
  induction clusters as [ | cluster rest IH ]; intros maxValue calls; cbn [forClusters].
  - cbn. lra.
  - unfold gbind.
    pose proof (clusterStep_grows random lng lat maxValue cluster calls) as Hstep.
    destruct (clusterStep random lng lat maxValue cluster calls) as [m calls'].
    cbn [fst] in Hstep. specialize (IH m calls'). lra.
Qed.

(** What one grid cell yields, for random numbers in [0, 1). *)
Lemma gridPoint_in_range (random : nat -> R) (i j calls : nat) :
  (forall k, 0 <= random k < 1) -> (i < 15)%nat -> (j < 15)%nat ->
  let point := fst (gridPoint random i j calls) in
  (Layer.value point = 0 \/ 0.08 <= Layer.value point <= 1) /\
  7.4 <= Layer.lng point <= 13.1 /\
  58.45 <= Layer.lat point <= 61.05.
Proof.
  intros Hrandom Hi Hj.
  pose proof gridSize_bounds as [Hg1 Hg2].
  assert (HL : 5.5 / 15 < lngStep < 5.5 / 14).
  { unfold lngStep, lngMax, lngMin.
    assert (H : 0 < / gridSize) by (apply Rinv_0_lt_compat; lra).
    assert (H1 : / 15 < / gridSize) by (apply Rinv_lt_contravar; nra).
    assert (H2 : / gridSize < / 14) by (apply Rinv_lt_contravar; nra).
    unfold Rdiv. lra. }
  assert (HT : 2.5 / 15 < latStep < 2.5 / 14).
  { unfold latStep, latMax, latMin.
    assert (H : 0 < / gridSize) by (apply Rinv_0_lt_compat; lra).
    assert (H1 : / 15 < / gridSize) by (apply Rinv_lt_contravar; nra).
    assert (H2 : / gridSize < / 14) by (apply Rinv_lt_contravar; nra).
    unfold Rdiv. lra. }
  assert (Hi' : 0 <= INR i <= 14).
  { split; [ apply pos_INR | ].
    replace 14 with (INR 14) by (rewrite INR_IZR_INZ; reflexivity).
    apply le_INR. lia. }
  assert (Hj' : 0 <= INR j <= 14).
  { split; [ apply pos_INR | ].
    replace 14 with (INR 14) by (rewrite INR_IZR_INZ; reflexivity).
    apply le_INR. lia. }
  unfold gridPoint, gbind, Math_random.
  pose proof (Hrandom calls) as Hr0. pose proof (Hrandom (S calls)) as Hr1.
  set (lng := lngMin + INR i * lngStep + (random calls - 0.5) * lngStep * 0.5).
  set (lat := latMin + INR j * latStep + (random (S calls) - 0.5) * latStep * 0.5).
  assert (Hlng : 7.4 <= lng <= 13.1) by (unfold lng, lngMin; nra).
  assert (Hlat : 58.45 <= lat <= 61.05) by (unfold lat, latMin; nra).
  pose proof (forClusters_grows random lng lat rainClusters 0 (S (S calls))) as Hmax.
  destruct (forClusters random lng lat rainClusters 0 (S (S calls))) as [maxValue calls'].
  cbn [fst] in Hmax.
  assert (Hfinal : 0 <= Rmin maxValue 1.0 <= 1)
    by (unfold Rmin; destruct (Rle_dec maxValue 1.0); lra).
  set (finalValue := Rmin maxValue 1.0) in *.
  pose proof (Hrandom calls') as Hc. pose proof (Hrandom (S calls')) as Hl.
  assert (Hcoords :
            forall v, 7.4 <= toFixed 4 lng <= 13.1 /\ 58.45 <= toFixed 4 lat <= 61.05 /\
                      (0 <= v <= 1 ->
                       let v' := if Rlt_dec v 0.08 then 0.0 else v in
                       toFixed 3 v' = 0 \/ 0.08 <= toFixed 3 v' <= 1)).
  { intros v.
    pose proof (toFixed_between 4 74000 131000 lng) as Hx.
    pose proof (toFixed_between 4 584500 610500 lat) as Hy.
    cbn [pow] in Hx, Hy.
    split; [ lra | split; [ lra | ] ].
    intros Hv. cbv zeta. destruct (Rlt_dec v 0.08) as [Hsmall | Hbig].
    - left. pose proof (toFixed_between 3 0 0 0.0) as Hz. cbn [pow] in Hz. lra.
    - right. pose proof (toFixed_between 3 80 1000 v) as Hz. cbn [pow] in Hz. lra. }
  destruct (Rlt_dec finalValue 0.1) as [Hlow | Hhigh].
  - destruct (Rlt_dec (random calls') 0.2) as [Hchance | Hchance]; cbn [fst gret Layer.value Layer.lng Layer.lat].
    + destruct (Hcoords (random (S calls') * 0.25)) as (Hx & Hy & Hv).
      split; [ apply Hv; lra | split; assumption ].
    + destruct (Hcoords finalValue) as (Hx & Hy & Hv).
      split; [ apply Hv; lra | split; assumption ].
  - cbn [fst gret Layer.value Layer.lng Layer.lat].
    destruct (Hcoords finalValue) as (Hx & Hy & Hv).
    split; [ apply Hv; lra | split; assumption ].
Qed.

End DemoLemmas.

(* ================================================================= *)
(** ** Properties of the demonstration data and of its use *)

Section DemoProperties.
Import GLSL Config Layer Spec Inputs Demo.

Lemma pushPoint_appends (random : nat -> R) (i j : nat)
      (points : list SamplePoint) (calls : nat) :
  fst (pushPoint random i j points calls)
  = points ++ [fst (gridPoint random i j calls)].
Proof.
  unfold pushPoint, gbind. destruct (gridPoint random i j calls). reflexivity.
Qed.

(** X22: [generatePrecipitationPoints] returns 225 points, whatever the
    random numbers are: each of its two loops runs its counter from 0 while
    it is below [Math.sqrt(200)], that is 15 times, not 14.  The model's
    fuel is not used up from 16 on, where the result no longer depends on
    it. *)
Theorem generatePrecipitationPoints_returns_225_points
        (random : nat -> R) (fuel : nat) :
  (16 <= fuel)%nat ->
  length (TEST_POINTS random fuel) = 225%nat /\
  generatePrecipitationPoints random fuel 0%nat
  = generatePrecipitationPoints random 16 0%nat.
Proof.
  intros Hfuel. split.
  - unfold TEST_POINTS, generatePrecipitationPoints.
    apply (forLoop_invariant (fun i points => length points = (15 * i)%nat));
      [ | lia | lia | reflexivity ].
    intros i points calls Hi Hlen.
    replace (15 * S i)%nat with (15 * i + 15)%nat by lia.
    apply (forLoop_invariant (fun j pts => length pts = (15 * i + j)%nat));
      [ | lia | lia | lia ].
    intros j pts calls' Hj Hpts.
    rewrite pushPoint_appends, length_app, Hpts. cbn. lia.
  - unfold generatePrecipitationPoints.
    apply forLoop_fuel; [ | lia | lia | lia ].
    intros i points calls Hi.
    apply forLoop_fuel; [ | lia | lia | lia ].
    reflexivity.
Qed.

Lemma generatePrecipitationPoints_returns_225_points_witness :
  length (TEST_POINTS steadyRandom 20) = 225%nat.
Proof.
  apply (generatePrecipitationPoints_returns_225_points steadyRandom 20). lia.
Defined.

Lemma TEST_POINTS_in_range (random : nat -> R) (fuel : nat) :
  (forall k, 0 <= random k < 1) ->
  Forall (fun point =>
            (value point = 0 \/ 0.08 <= value point <= 1) /\
            7.4 <= lng point <= 13.1 /\ 58.45 <= lat point <= 61.05)
         (TEST_POINTS random fuel).
Proof.
  intros Hrandom. unfold TEST_POINTS, generatePrecipitationPoints.
  apply (forLoop_preserves (Forall _)); [ | constructor ].
  intros i points calls Hi Hpoints.
  apply (forLoop_preserves (Forall _)); [ | exact Hpoints ].
  intros j pts calls' Hj Hpts.
  rewrite pushPoint_appends. apply Forall_app. split; [ exact Hpts | ].
  constructor; [ | constructor ].
  apply (gridPoint_in_range random i j calls' Hrandom Hi Hj).
Qed.

(** X23: with random numbers in [0, 1), every generated point has a value
    that is 0 or lies between 0.08 and 1: the value is capped at 1, and
    what is below 0.08 is set to 0 before the rounding to three
    decimals. *)
Theorem generated_values_are_zero_or_visible (random : nat -> R) (fuel : nat) :
  (forall k, 0 <= random k < 1) ->
  Forall (fun point => value point = 0 \/ 0.08 <= value point <= 1)
         (TEST_POINTS random fuel).
Proof.
  intros Hrandom.
  apply (Forall_impl _ (P := fun point =>
            (value point = 0 \/ 0.08 <= value point <= 1) /\
            7.4 <= lng point <= 13.1 /\ 58.45 <= lat point <= 61.05)).
  - intros point H. apply H.
  - apply TEST_POINTS_in_range. exact Hrandom.
Qed.

Lemma generated_values_are_zero_or_visible_witness :
  Forall (fun point => value point = 0 \/ 0.08 <= value point <= 1)
         (TEST_POINTS steadyRandom 16).
Proof.
  apply (generated_values_are_zero_or_visible steadyRandom 16).
  intros k. unfold steadyRandom. lra.
Defined.

(** X24: with random numbers in [0, 1), every generated point lies in the
    box of longitudes 7.4 to 13.1 and latitudes 58.45 to 61.05, so inside
    the domain on which the shader's projection inverts: its latitude is
    recovered exactly from its Mercator Y. *)
Theorem generated_points_lie_in_the_grid_box (random : nat -> R) (fuel : nat) :
  (forall k, 0 <= random k < 1) ->
  Forall (fun point =>
            7.4 <= lng point <= 13.1 /\ 58.45 <= lat point <= 61.05 /\
            Shaders.mercatorYToLat (Shaders.latToMercatorY (lat point)) = lat point)
         (TEST_POINTS random fuel).
Proof.
  intros Hrandom.
  apply (Forall_impl _ (P := fun point =>
            (value point = 0 \/ 0.08 <= value point <= 1) /\
            7.4 <= lng point <= 13.1 /\ 58.45 <= lat point <= 61.05)).
  - intros point (_ & Hlng & Hlat).
    split; [ exact Hlng | split; [ exact Hlat | ] ].
    apply mercatorY_roundtrip. lra.
  - apply TEST_POINTS_in_range. exact Hrandom.
Qed.

Lemma generated_points_lie_in_the_grid_box_witness :
  Forall (fun point =>
            7.4 <= lng point <= 13.1 /\ 58.45 <= lat point <= 61.05 /\
            Shaders.mercatorYToLat (Shaders.latToMercatorY (lat point)) = lat point)
         (TEST_POINTS steadyRandom 16).
Proof.
  apply (generated_points_lie_in_the_grid_box steadyRandom 16).
  intros k. unfold steadyRandom. lra.
Defined.

(** X25: the [load] handler of main.js activates the layer.  Whatever the
    random numbers, when the shaders compile and the program links, the
    layer constructed over [TEST_POINTS] with [DEFAULT_CONFIG] is added
    without an error: its 225 points pass the check of at most 250, and the
    array cached for them has 675 numbers. *)
Theorem onLoad_activates_the_layer
        (random : nat -> R) (fuel : nat) (host : Map) (gl : WebGL) :
  (16 <= fuel)%nat ->
  vertexCompiles gl = true -> fragmentCompiles gl = true -> programLinks gl = true ->
  exists this : PrecipitationLayer,
    onLoad random fuel host gl = (Normal tt, Some this) /\
    points this = TEST_POINTS random fuel /\
    length (points this) = 225%nat /\
    config this = DEFAULT_CONFIG /\
    map this = Some host /\
    program this = Some GLProgram /\
    pointsArray this = Some (pointsFloats (TEST_POINTS random fuel)) /\
    length (pointsFloats (TEST_POINTS random fuel)) = 675%nat.
Proof.
  intros Hfuel Hv Hf Hl.
  destruct (generatePrecipitationPoints_returns_225_points random fuel Hfuel)
    as [Hcount _].
  destruct gl as [v f l].
  cbn [vertexCompiles fragmentCompiles programLinks] in Hv, Hf, Hl. subst v f l.
  unfold onLoad, constructor, onAdd, createShader, createProgram, bind, assign, get.
  cbn [vertexCompiles fragmentCompiles programLinks program set_program set_map].
  rewrite prepareUniformData_fits by (cbn [points set_positionBuffer set_locations
    set_program set_map]; rewrite Hcount; lia).
  eexists. split; [ reflexivity | ].
  cbn. repeat split; try assumption.
  unfold pointsFloats. clear Hfuel.
  assert (Hlen3 : forall pts : list SamplePoint,
             length (flat_map (fun point => [lng point; lat point; value point]) pts)
             = (3 * length pts)%nat).
  { induction pts as [ | q pts IH ]; [ reflexivity | ].
    cbn [flat_map app length]. rewrite IH. lia. }
  rewrite Hlen3, Hcount. reflexivity.
Qed.

Lemma onLoad_activates_the_layer_witness :
  exists this : PrecipitationLayer,
    onLoad steadyRandom 16 hostMap workingGL = (Normal tt, Some this) /\
    length (points this) = 225%nat.
Proof.
  destruct (onLoad_activates_the_layer steadyRandom 16 hostMap workingGL)
    as (this & Hload & _ & Hcount & _); try reflexivity.
  exists this. split; [ exact Hload | exact Hcount ].
Defined.

End DemoProperties.
